(** * RTSP load tester: supervision and orchestration core

    A shallow embedding of [src/rtsp_load_tester/stream_publisher.py]
    ([Publisher]) and [src/rtsp_load_tester/orchestrator.py]
    ([Orchestrator]), followed by the properties proved of them.

    Conventions.
    - Time is counted in tenths of a time unit, the finest grain the code
      sleeps at: [time.sleep(0.1)] is [Sleep 1], [time.sleep(2)] is
      [Sleep 20].  Configured durations are stored in the same unit.
    - The supervision thread of a publisher is a program counter ([pc]);
      one [thread_step] is one statement of [_publish_loop], so that the
      caller's [start] and [stop] and the thread interleave where Python
      lets them.  A statement is atomic, and so is [error_count += 1].
    - The processes a publisher has spawned are kept in a table inside the
      publisher ([procs]); a [subprocess.Popen] handle is an index into it.
    - What the environment decides (the file system, the resource
      samples, what the publishers' threads and processes do while the
      main thread blocks, how [stop] interleaves with the thread) is
      passed in explicitly.
    - What the code logs is kept as structured lines, not formatted text. *)

From Stdlib Require Import ZArith List String Ascii Bool Lia QArith.
From Stdlib Require Import DecimalString DecimalZ.
From Stdlib Require Finite.
Import ListNotations.
Local Open Scope Z_scope.
Local Open Scope string_scope.

(** [str(n)] for a Python int. *)
Definition str (n : Z) : string := NilZero.string_of_int (Z.to_int n).

(** Replace the [i]-th element of a list (nothing happens out of range). *)
Fixpoint set_nth {A} (i : nat) (x : A) (l : list A) : list A :=
  match l, i with
  | [], _ => []
  | _ :: t, O => x :: t
  | h :: t, S j => h :: set_nth j x t
  end.

Inductive level := DEBUG | INFO | WARNING | ERROR.

(** The exceptions the two classes raise themselves. *)
Inductive exn :=
| ValueError (msg : string)
| FileNotFoundError (msg : string)
| KeyError (key : string).

(** What [os.path.exists] and [cv2.VideoCapture] find at a path: no file,
    a file that cannot be opened, or width, height and frame count. *)
Inductive probed :=
| NoFile
| Unreadable
| Video (width height frames : Z).

Module Publisher.

(** ** State *)

(** The constructor arguments and the video properties read once by
    [_get_video_properties]; none of them changes afterwards. *)
Record settings := {
  stream_name : string;
  video_path : string;
  rtsp_url : string;
  loop : bool;
  fps : Z;
  codec : string;
  preset : string;
  bitrate : string;
  pixel_format : string;
  video_width : Z;
  video_height : Z;
  total_frames : Z
}.

(** Where the supervision thread stands in [_publish_loop]. *)
Inductive pc :=
| LoopHead    (* about to evaluate [while self.running]                 *)
| Launch      (* inside the [try]: build the command, [Popen]            *)
| Poll        (* about to evaluate the inner [while] condition           *)
| IfRunning   (* about to evaluate [if self.running]                     *)
| Crashed     (* inside that [if]: read stderr, log, count, sleep        *)
| Finished.   (* [_publish_loop] has returned                            *)

(** A spawned encoder process as the publisher can observe it. *)
Record proc := { alive : bool; stderr : string }.

Inductive message :=
| FfmpegCommand (cmd : list string)
| EndedUnexpectedly (excerpt : string)
| PublishLoopError
| AlreadyRunning
| Started
| Stopping
| ForceKilling
| Stopped.

Inductive event :=
| Log (l : level) (m : message)
| Popen (cmd : list string)
| Sleep (tenths : Z).

Record publisher := {
  conf : settings;
  process : option nat;        (* self.process *)
  thread : option pc;          (* self.thread *)
  running : bool;              (* self.running *)
  error_count : Z;             (* self.error_count *)
  start_time : option Z;       (* self.start_time *)
  (* the publisher's share of the outside world *)
  procs : list proc;           (* every process spawned so far *)
  spawn_ok : bool;             (* whether [Popen] succeeds right now *)
  trace : list event           (* what has been logged, spawned and slept *)
}.

Definition set_process h p :=
  {| conf := conf p; process := h; thread := thread p; running := running p;
     error_count := error_count p; start_time := start_time p;
     procs := procs p; spawn_ok := spawn_ok p; trace := trace p |}.
Definition set_thread t p :=
  {| conf := conf p; process := process p; thread := t; running := running p;
     error_count := error_count p; start_time := start_time p;
     procs := procs p; spawn_ok := spawn_ok p; trace := trace p |}.
Definition set_running b p :=
  {| conf := conf p; process := process p; thread := thread p; running := b;
     error_count := error_count p; start_time := start_time p;
     procs := procs p; spawn_ok := spawn_ok p; trace := trace p |}.
Definition set_error_count n p :=
  {| conf := conf p; process := process p; thread := thread p; running := running p;
     error_count := n; start_time := start_time p;
     procs := procs p; spawn_ok := spawn_ok p; trace := trace p |}.
Definition set_start_time t p :=
  {| conf := conf p; process := process p; thread := thread p; running := running p;
     error_count := error_count p; start_time := t;
     procs := procs p; spawn_ok := spawn_ok p; trace := trace p |}.
Definition set_procs l p :=
  {| conf := conf p; process := process p; thread := thread p; running := running p;
     error_count := error_count p; start_time := start_time p;
     procs := l; spawn_ok := spawn_ok p; trace := trace p |}.
Definition set_spawn_ok b p :=
  {| conf := conf p; process := process p; thread := thread p; running := running p;
     error_count := error_count p; start_time := start_time p;
     procs := procs p; spawn_ok := b; trace := trace p |}.
Definition emit e p :=
  {| conf := conf p; process := process p; thread := thread p; running := running p;
     error_count := error_count p; start_time := start_time p;
     procs := procs p; spawn_ok := spawn_ok p; trace := trace p ++ [e] |}.

(** [__init__] followed by [_get_video_properties]; [probe] is the file
    system.  [inl] is a raised exception. *)
Definition init (probe : string -> probed)
    (stream_name video_path rtsp_url : string) (loop : bool) (fps : Z)
    (codec preset bitrate pixel_format : string) : exn + publisher :=
  match probe video_path with
  | NoFile => inl (FileNotFoundError ("Video file not found: " ++ video_path))
  | Unreadable => inl (ValueError ("Cannot open video file: " ++ video_path))
  | Video w h n =>
      inr {| conf := {| stream_name := stream_name; video_path := video_path;
                        rtsp_url := rtsp_url; loop := loop; fps := fps;
                        codec := codec; preset := preset; bitrate := bitrate;
                        pixel_format := pixel_format;
                        video_width := w; video_height := h; total_frames := n |};
             process := None; thread := None; running := false;
             error_count := 0; start_time := None;
             procs := []; spawn_ok := true; trace := [] |}
  end.

(** ** [_build_ffmpeg_command] *)

Definition build_ffmpeg_command (c : settings) : list string :=
  let input_opts :=
    ["-hide_banner"; "-loglevel"; "error"; "-re";
     "-stream_loop"; if loop c then "-1" else "0";
     "-i"; video_path c] in
  let output_opts :=
    ["-c:v"; codec c; "-preset"; preset c; "-b:v"; bitrate c;
     "-pix_fmt"; pixel_format c; "-r"; str (fps c); "-f"; "rtsp";
     "-g"; str (fps c * 2); "-keyint_min"; str (fps c);
     "-sc_threshold"; "0"; "-rtsp_transport"; "tcp"] in
  ["ffmpeg"] ++ input_opts ++ output_opts ++ [rtsp_url c].

(** ** The supervision thread *)

Definition POLL_INTERVAL : Z := 1.      (* time.sleep(0.1) *)
Definition RESTART_DELAY : Z := 20.     (* time.sleep(2)   *)
Definition EXCERPT : nat := 500.        (* stderr_output[:500] *)

(** The process [self.process] refers to, if any. *)
Definition current (p : publisher) : option proc :=
  match process p with
  | Some h => nth_error (procs p) h
  | None => None
  end.

(** The [except Exception] handler of [_publish_loop]. *)
Definition handler (p : publisher) : publisher :=
  set_thread (Some LoopHead)
    (emit (Sleep RESTART_DELAY)
       (set_error_count (error_count p + 1)
          (emit (Log ERROR PublishLoopError) p))).

(** One statement of [_publish_loop]. *)
Definition thread_step (p : publisher) : publisher :=
  match thread p with
  | Some LoopHead =>
      if running p then set_thread (Some Launch) p
      else set_thread (Some Finished) p
  | Some Launch =>
      let cmd := build_ffmpeg_command (conf p) in
      let p := emit (Log DEBUG (FfmpegCommand cmd)) p in
      if spawn_ok p then
        set_thread (Some Poll)
          (emit (Popen cmd)
             (set_process (Some (List.length (procs p)))
                (set_procs (procs p ++ [{| alive := true; stderr := "" |}]) p)))
      else handler p
  | Some Poll =>
      if running p then
        match current p with
        | Some pr =>
            if alive pr then emit (Sleep POLL_INTERVAL) p
            else set_thread (Some IfRunning) p
        | None => handler p
        end
      else set_thread (Some IfRunning) p
  | Some IfRunning =>
      if running p then set_thread (Some Crashed) p
      else set_thread (Some LoopHead) p
  | Some Crashed =>
      match current p with
      | Some pr =>
          if alive pr then p      (* [stderr.read()] blocks until the process ends *)
          else
            set_thread (Some LoopHead)
              (emit (Sleep RESTART_DELAY)
                 (set_error_count (error_count p + 1)
                    (emit (Log ERROR
                             (EndedUnexpectedly (substring 0 EXCERPT (stderr pr))))
                       p)))
      | None => handler p
      end
  | Some Finished | None => p
  end.

Definition thread_steps (n : nat) (p : publisher) : publisher :=
  Nat.iter n thread_step p.

(** [self.thread.is_alive()] guarded by [self.thread is not None]. *)
Definition thread_alive (p : publisher) : bool :=
  match thread p with
  | Some Finished | None => false
  | Some _ => true
  end.

(** ** [start], [stop], [get_stats], [is_healthy] *)

Definition start (now : Z) (p : publisher) : publisher :=
  if running p then emit (Log WARNING AlreadyRunning) p
  else
    emit (Log INFO Started)
      (set_thread (Some LoopHead)
         (set_start_time (Some now) (set_running true p))).

(** What [stop] cannot decide by itself: how many statements the
    supervision thread gets to run between [self.running = False] and the
    test [if self.process], and whether the process ends within the five
    time units [wait] grants it after [terminate]. *)
Record stop_env := { preempt : nat; graceful : bool }.

(** [terminate(); wait(timeout=5)], then [kill()] on [TimeoutExpired].
    On a process that has ended already, [terminate] does nothing and
    [wait] returns at once.  On a child process these calls raise nothing
    else, so the [except Exception] clause has no counterpart here. *)
Definition terminate (e : stop_env) (p : publisher) : publisher :=
  match process p with
  | Some h =>
      match nth_error (procs p) h with
      | Some pr =>
          if alive pr then
            let p := set_procs
                       (set_nth h {| alive := false; stderr := stderr pr |} (procs p)) p in
            if graceful e then p else emit (Log WARNING ForceKilling) p
          else p
      | None => p
      end
  | None => p
  end.

(** [self.thread.join(timeout=5)]: the thread runs on while the caller
    waits.  With [running] false it needs at most four statements to
    return, and sleeps at most once (2 time units) on the way. *)
Definition join (p : publisher) : publisher := thread_steps 4 p.

Definition stop (e : stop_env) (p : publisher) : publisher :=
  let p := emit (Log INFO Stopping) p in
  let p := set_running false p in
  let p := thread_steps (preempt e) p in
  let p := terminate e p in
  let p := if thread_alive p then join p else p in
  emit (Log INFO Stopped) p.

Record stats := {
  s_stream_name : string;
  s_rtsp_url : string;
  s_running : bool;
  s_uptime : Z;
  s_error_count : Z;
  s_video_path : string;
  s_resolution : string;
  s_fps : Z;
  s_is_alive : bool
}.

Definition get_stats (now : Z) (p : publisher) : stats :=
  {| s_stream_name := stream_name (conf p);
     s_rtsp_url := rtsp_url (conf p);
     s_running := running p;
     s_uptime := match start_time p with
                 | Some t => if (t =? 0)%Z then 0 else now - t
                 | None => 0
                 end;
     s_error_count := error_count p;
     s_video_path := video_path (conf p);
     s_resolution := str (video_width (conf p)) ++ "x" ++ str (video_height (conf p));
     s_fps := fps (conf p);
     s_is_alive := thread_alive p |}.

Definition MAX_ERRORS : Z := 10.

Definition is_healthy (p : publisher) : bool :=
  running p && thread_alive p && (error_count p <? MAX_ERRORS)%Z.

(** ** Executions *)

(** What happens to a publisher behind the caller's back: its thread runs
    a statement, one of its processes ends by itself and leaves [err] on
    its stderr, or the host starts or stops being able to spawn. *)
Inductive background :=
| LoopStep
| ProcExit (h : nat) (err : string)
| SpawnOk (b : bool).

Inductive op :=
| Start (now : Z)
| Stop (e : stop_env)
| GetStats (now : Z)
| IsHealthy
| Bg (b : background).

Definition proc_exit (h : nat) (err : string) (p : publisher) : publisher :=
  match nth_error (procs p) h with
  | Some pr =>
      if alive pr
      then set_procs (set_nth h {| alive := false; stderr := err |} (procs p)) p
      else p
  | None => p
  end.

Definition bg_step (b : background) (p : publisher) : publisher :=
  match b with
  | LoopStep => thread_step p
  | ProcExit h err => proc_exit h err p
  | SpawnOk b => set_spawn_ok b p
  end.

Definition step (o : op) (p : publisher) : publisher :=
  match o with
  | Start now => start now p
  | Stop e => stop e p
  | GetStats _ => p           (* a pure read *)
  | IsHealthy => p            (* a pure read *)
  | Bg b => bg_step b p
  end.

Definition run (ops : list op) (p : publisher) : publisher :=
  fold_left (fun q o => step o q) ops p.

(** How many of the processes spawned by the publisher are alive. *)
Definition live (p : publisher) : nat :=
  List.length (filter alive (procs p)).

(** ** Vocabulary of the properties *)

(** [n] rounds of the inner [while] on a live process, [running] true. *)
Definition slept (n : nat) (p : publisher) : publisher :=
  Nat.iter n (emit (Sleep POLL_INTERVAL)) p.

(** Once [running] is false, a thread that is past the launch only
    leaves: it changes nothing but its own position. *)
Definition rank (p : publisher) : option nat :=
  match thread p with
  | Some Poll => Some 3%nat
  | Some IfRunning => Some 2%nat
  | Some LoopHead => Some 1%nat
  | Some Finished => Some 0%nat
  | Some Launch | Some Crashed | None => None
  end.

(** Every live process is the one [self.process] refers to. *)
Definition owned (p : publisher) : Prop :=
  forall h pr, nth_error (procs p) h = Some pr -> alive pr = true -> process p = Some h.

(** No process of the publisher is alive. *)
Definition idle (p : publisher) : Prop :=
  forall h pr, nth_error (procs p) h = Some pr -> alive pr = false.

(** What holds of a publisher as long as [start] is not called on a
    stopped publisher that still has a live process: live processes are
    owned, and a thread that is about to launch finds none. *)
Definition tidy (p : publisher) : Prop :=
  owned p /\
  (thread p = Some Launch -> idle p) /\
  (thread p = Some LoopHead -> running p = true -> idle p).



(** One round of the outer loop that ends in a crash: launch, [polls]
    rounds of the inner loop, the process ends by itself leaving [err] on
    its stderr, and the three statements that handle it. *)
Definition crash_cycle (c : nat * string) (p : publisher) : publisher :=
  thread_steps 3
    (proc_exit (List.length (procs p)) (snd c)
       (thread_steps (fst c) (thread_steps 2 p))).

Definition crash_cycles (cs : list (nat * string)) (p : publisher) : publisher :=
  fold_left (fun q c => crash_cycle c q) cs p.

(** What one failed launch leaves in the trace. *)
Definition failed_launch (p : publisher) : list event :=
  [Log DEBUG (FfmpegCommand (build_ffmpeg_command (conf p)));
   Log ERROR PublishLoopError; Sleep RESTART_DELAY].

(** An operation other than [stop]. *)
Definition not_stop (o : op) : Prop :=
  match o with Stop _ => False | _ => True end.

(** The commands of the [Popen] calls so far, in order. *)
Definition spawned (p : publisher) : list (list string) :=
  flat_map (fun e => match e with Popen cmd => [cmd] | _ => [] end) (trace p).

(** [q] is [p] after [k] more launches, each of them with the command
    built from the settings of [p]. *)
Definition launches (k : nat) (p q : publisher) : Prop :=
  conf q = conf p /\
  spawned q = (spawned p ++ repeat (build_ffmpeg_command (conf p)) k)%list /\
  List.length (procs q) = (List.length (procs p) + k)%nat.


End Publisher.

Module Orchestrator.

(** ** Configuration

    The YAML document as the code reads it: every section and every key
    the code looks up with [.get] is optional; [config["video"]["path"]],
    [source["name"]], [source["video_path"]] and
    [config["rtsp_server"]["base_url"]] are read with [[...]] and are
    therefore fields.  Durations are in tenths of a time unit,
    percentages are rationals. *)

Record video_config := {
  v_path : string;
  v_loop : option bool;
  v_fps : option Z
}.

Record source := {
  src_name : string;
  src_video_path : string;
  src_loop : option bool;
  src_fps : option Z
}.

Record server_config := { base_url : string }.

Record load_test_config := {
  concurrent_streams : option Z;
  duration : option Z;
  report_interval : option Z
}.

Record limits_config := {
  max_streams : option Z;
  max_memory_percent : option Q;
  max_cpu_percent : option Q
}.

Record publisher_config := {
  c_codec : option string;
  c_preset : option string;
  c_bitrate : option string;
  c_pixel_format : option string
}.

Record monitoring_config := {
  enabled : option bool;
  metrics_file : option string
}.

Record config := {
  video : option video_config;
  video_sources : option (list source);
  rtsp_server : option server_config;
  load_test : option load_test_config;
  limits : option limits_config;
  publisher : option publisher_config;
  monitoring : option monitoring_config
}.

(** [d.get(key, default)]. *)
Definition get {B} (field : option B) (default : B) : B :=
  match field with Some b => b | None => default end.

(** [config.get(section, {}).get(key, default)]. *)
Definition get2 {A B} (section : option A) (key : A -> option B) (default : B) : B :=
  match section with Some a => get (key a) default | None => default end.

(** Truth value of [config.get("video_sources")]: a missing key and an
    empty list are both false. *)
Definition has_sources (c : config) : bool :=
  match video_sources c with Some (_ :: _) => true | _ => false end.

(** Truth value of [config.get("video")] and [config.get("rtsp_server")]. *)
Definition present {A} (section : option A) : bool :=
  match section with Some _ => true | None => false end.

(** ** State *)

Record report := {
  test_duration : Z;
  total_streams : nat;
  streams : list Publisher.stats
}.

Inductive line :=
| AlreadyRunning
| CreatedPublisher (name : string)
| CreatedPublishers (n : nat)
| Starting
| StartedStreams (n : nat)
| DurationReached (d : Z)
| StatusReport (cpu mem : Q) (healthy total : nat) (each : list Publisher.stats)
| MemoryExceeded (sample limit : Q)
| CpuExceeded (sample limit : Q)
| FoundUnhealthy (n : nat)
| TooManyErrors (name : string)
| StoppingAll
| FinalReport (r : report)
| ReportSaved (file : string)
| LoadTestStopped.

Record state := {
  (* the object *)
  cfg : config;                               (* self.config *)
  publishers : list Publisher.publisher;      (* self.publishers *)
  running : bool;                             (* self.running *)
  start_time : Z;                             (* self.start_time *)
  (* the world around it *)
  now : Z;                                    (* time.time() *)
  logs : list (Z * level * line);             (* loguru, with time stamps *)
  saved : option (string * report)            (* the metrics file *)
}.

Definition set_publishers l s :=
  {| cfg := cfg s; publishers := l; running := running s;
     start_time := start_time s; now := now s; logs := logs s; saved := saved s |}.
Definition set_running b s :=
  {| cfg := cfg s; publishers := publishers s; running := b;
     start_time := start_time s; now := now s; logs := logs s; saved := saved s |}.
Definition set_start_time t s :=
  {| cfg := cfg s; publishers := publishers s; running := running s;
     start_time := t; now := now s; logs := logs s; saved := saved s |}.
Definition set_now t s :=
  {| cfg := cfg s; publishers := publishers s; running := running s;
     start_time := start_time s; now := t; logs := logs s; saved := saved s |}.
Definition set_saved r s :=
  {| cfg := cfg s; publishers := publishers s; running := running s;
     start_time := start_time s; now := now s; logs := logs s; saved := r |}.
Definition log (l : level) (m : line) s :=
  {| cfg := cfg s; publishers := publishers s; running := running s;
     start_time := start_time s; now := now s;
     logs := logs s ++ [(now s, l, m)]; saved := saved s |}.

(** ** The environment *)

Record environ := {
  probe : string -> probed;
      (* the file system, for [RTSPStreamPublisher.__init__] *)
  memory_percent : Z -> Q;
      (* [psutil.virtual_memory().percent] read at a given time *)
  cpu_percent : Z -> Q;
      (* [psutil.cpu_percent(interval=1)] called at a given time *)
  stop_how : Z -> nat -> Publisher.stop_env;
      (* how [stop()] of the i-th publisher, called at a given time,
         interleaves with that publisher's thread and process *)
  meanwhile : Z -> nat -> list Publisher.background
      (* what happens to the i-th publisher while the main thread blocks
         from a given time on *)
}.

Fixpoint mapi_from {A B} (i : nat) (f : nat -> A -> B) (l : list A) : list B :=
  match l with
  | [] => []
  | x :: t => f i x :: mapi_from (S i) f t
  end.

Definition mapi {A B} (f : nat -> A -> B) (l : list A) : list B := mapi_from 0 f l.

Definition bg_run (bs : list Publisher.background) (p : Publisher.publisher) :=
  fold_left (fun q b => Publisher.bg_step b q) bs p.

(** The main thread blocks for [d] tenths ([time.sleep], or the sampling
    interval of [psutil.cpu_percent]); the publishers carry on. *)
Definition block (env : environ) (d : Z) (s : state) : state :=
  set_now (now s + d)
    (set_publishers (mapi (fun i => bg_run (meanwhile env (now s) i)) (publishers s)) s).

Definition START_DELAY : Z := 5.        (* time.sleep(0.5) *)
Definition TICK_SLEEP : Z := 10.        (* time.sleep(1) *)
Definition CPU_INTERVAL : Z := 10.      (* psutil.cpu_percent(interval=1) *)

(** ** [_validate_config] and [__init__] *)

Definition validate_config (c : config) : option exn :=
  if negb (has_sources c) && negb (present (video c)) then
    Some (ValueError "No video source configured (use 'video' section)")
  else if negb (present (rtsp_server c)) then
    Some (ValueError "RTSP server configuration missing")
  else
    let max_streams := get2 (limits c) max_streams 50 in
    let concurrent_streams := get2 (load_test c) concurrent_streams 1 in
    if concurrent_streams >? max_streams then
      Some (ValueError ("Concurrent streams (" ++ str concurrent_streams
                        ++ ") exceeds max limit (" ++ str max_streams ++ ")"))
    else None.

(** [LoadTestOrchestrator(config)] at time [t]: [inl] is the exception
    that leaves the constructor, in which case no object exists. *)
Definition init (c : config) (t : Z) : exn + state :=
  match validate_config c with
  | Some e => inl e
  | None => inr {| cfg := c; publishers := []; running := false; start_time := 0;
                   now := t; logs := []; saved := None |}
  end.

(** ** [create_publishers] *)

(** The body of either [for] loop: construct, append, log; an exception
    ends the loop and leaves what was appended so far. *)
Fixpoint append_all (mk : list (string * (exn + Publisher.publisher)))
    (s : state) : state * option exn :=
  match mk with
  | [] => (s, None)
  | (_, inl e) :: _ => (s, Some e)
  | (name, inr p) :: rest =>
      append_all rest
        (log INFO (CreatedPublisher name) (set_publishers (publishers s ++ [p]) s))
  end.

(** [range(1, n + 1)]. *)
Definition range1 (n : Z) : list Z := map Z.of_nat (seq 1 (Z.to_nat n)).

Definition create_publishers (env : environ) (s : state) : state * option exn :=
  match rtsp_server (cfg s) with
  | None => (s, Some (KeyError "rtsp_server"))
  | Some server =>
      let rtsp_base_url := base_url server in
      let pub {B} (key : publisher_config -> option B) (d : B) :=
        get2 (publisher (cfg s)) key d in
      let finish r :=
        match r with
        | (s', None) => (log INFO (CreatedPublishers (List.length (publishers s'))) s', None)
        | (s', Some e) => (s', Some e)
        end in
      match video (cfg s) with
      | Some video_config =>
          let video_path := v_path video_config in
          let loop := get (v_loop video_config) true in
          let fps := get (v_fps video_config) 30 in
          let concurrent_streams := get2 (load_test (cfg s)) concurrent_streams 3 in
          finish
            (append_all
               (map (fun i =>
                       let stream_name := "stream" ++ str i in
                       let rtsp_url := rtsp_base_url ++ "/" ++ stream_name in
                       (stream_name,
                        Publisher.init (probe env) stream_name video_path rtsp_url
                          loop fps
                          (pub c_codec "libx264") (pub c_preset "ultrafast")
                          (pub c_bitrate "2M") (pub c_pixel_format "yuv420p")))
                    (range1 concurrent_streams))
               s)
      | None =>
          if has_sources (cfg s) then
            finish
              (append_all
                 (map (fun source =>
                         let stream_name := src_name source in
                         let video_path := src_video_path source in
                         let rtsp_url := rtsp_base_url ++ "/" ++ stream_name in
                         (stream_name,
                          Publisher.init (probe env) stream_name video_path rtsp_url
                            (get (src_loop source) true) (get (src_fps source) 30)
                            (pub c_codec "libx264") (pub c_preset "ultrafast")
                            (pub c_bitrate "2M") (pub c_pixel_format "yuv420p")))
                      (get (video_sources (cfg s)) []))
                 s)
          else finish (s, None)
      end
  end.

(** ** [stop] and [_generate_final_report] *)

Definition generate_final_report (s : state) : state :=
  let elapsed := now s - start_time s in
  let r := {| test_duration := elapsed;
              total_streams := List.length (publishers s);
              streams := map (Publisher.get_stats (now s)) (publishers s) |} in
  let s := log INFO (FinalReport r) s in
  if get2 (monitoring (cfg s)) enabled true then
    let file := get2 (monitoring (cfg s)) metrics_file "logs/metrics.json" in
    log INFO (ReportSaved file) (set_saved (Some (file, r)) s)
  else s.

Definition stop (env : environ) (s : state) : state :=
  if negb (running s) then s
  else
    let s := log INFO StoppingAll s in
    let s := set_running false s in
    let s := set_publishers
               (mapi (fun i => Publisher.stop (stop_how env (now s) i)) (publishers s)) s in
    let s := generate_final_report s in
    log INFO LoadTestStopped s.

(** ** The three checks of a monitoring tick *)

(** Python's [a > b] on two numbers. *)
Definition Qgtb (a b : Q) : bool := negb (Qle_bool a b).

Definition print_status_report (env : environ) (s : state) : state :=
  let cpu := cpu_percent env (now s) in
  let s := block env CPU_INTERVAL s in
  let memory := memory_percent env (now s) in
  let healthy_count := List.length (filter Publisher.is_healthy (publishers s)) in
  log INFO (StatusReport cpu memory healthy_count (List.length (publishers s))
              (map (Publisher.get_stats (now s)) (publishers s))) s.

Definition check_resource_limits (env : environ) (s : state) : state :=
  (* Memory check *)
  let max_memory := get2 (limits (cfg s)) max_memory_percent (80 # 1)%Q in
  let memory := memory_percent env (now s) in
  let s := if Qgtb memory max_memory
           then stop env (log ERROR (MemoryExceeded memory max_memory) s)
           else s in
  (* CPU check (warning only) *)
  let max_cpu := get2 (limits (cfg s)) max_cpu_percent (90 # 1)%Q in
  let cpu := cpu_percent env (now s) in
  let s := block env CPU_INTERVAL s in
  if Qgtb cpu max_cpu then log WARNING (CpuExceeded cpu max_cpu) s else s.

(** A publisher the audit stops: in [unhealthy_streams] and with ten
    errors or more. *)
Definition quarantined (p : Publisher.publisher) : bool :=
  negb (Publisher.is_healthy p) && (Publisher.error_count p >=? 10).

Definition check_stream_health (env : environ) (s : state) : state :=
  let unhealthy_streams := filter (fun p => negb (Publisher.is_healthy p)) (publishers s) in
  match unhealthy_streams with
  | [] => s
  | _ :: _ =>
      let s := log WARNING (FoundUnhealthy (List.length unhealthy_streams)) s in
      let s := fold_left
                 (fun s p => log ERROR (TooManyErrors (Publisher.stream_name (Publisher.conf p))) s)
                 (filter quarantined (publishers s)) s in
      set_publishers
        (mapi (fun i p => if quarantined p
                          then Publisher.stop (stop_how env (now s) i) p
                          else p)
              (publishers s)) s
  end.

(** ** [_monitoring_loop] and [start] *)

(** The [while self.running] loop; [None] when the fuel runs out before
    the loop is left.  The clock advances by the nominal length of every
    sleep and sampling interval and by nothing else.  Nothing in the body
    as modelled raises, and SIGINT is taken by [_signal_handler], so the
    two [except] clauses have no counterpart here. *)
Fixpoint monitor (env : environ) (report_interval duration : Z)
    (fuel : nat) (last_report_time : Z) (s : state) : option state :=
  match fuel with
  | O => None
  | S fuel =>
      if running s then
        let current_time := now s in
        let elapsed := current_time - start_time s in
        if (duration >? 0) && (elapsed >=? duration) then
          Some (log INFO (DurationReached duration) s)
        else
          let '(s, last_report_time) :=
            if current_time - last_report_time >=? report_interval
            then (print_status_report env s, current_time)
            else (s, last_report_time) in
          let s := check_resource_limits env s in
          let s := check_stream_health env s in
          let s := block env TICK_SLEEP s in
          monitor env report_interval duration fuel last_report_time s
      else Some s
  end.

Definition monitoring_loop (env : environ) (fuel : nat) (s : state) : option state :=
  let report_interval := get2 (load_test (cfg s)) report_interval 100 in
  let duration := get2 (load_test (cfg s)) duration 0 in
  match monitor env report_interval duration fuel (now s) s with
  | Some s => Some (stop env s)
  | None => None
  end.

(** The [for publisher in self.publishers] loop of [start], from the
    [i]-th publisher on. *)
Fixpoint start_from (env : environ) (i : nat) (n : nat) (s : state) : state :=
  match n with
  | O => s
  | S n =>
      let s := match nth_error (publishers s) i with
               | Some p => set_publishers
                             (set_nth i (Publisher.start (now s) p) (publishers s)) s
               | None => s
               end in
      start_from env (S i) n (block env START_DELAY s)
  end.

Inductive outcome :=
| Returned (s : state)
| Raised (e : exn) (s : state)
| OutOfFuel.

Definition start (env : environ) (fuel : nat) (s : state) : outcome :=
  if running s then Returned (log WARNING AlreadyRunning s)
  else
    let '(s, e) := match publishers s with
                   | [] => create_publishers env s
                   | _ :: _ => (s, None)
                   end in
    match e with
    | Some e => Raised e s
    | None =>
        let s := set_running true s in
        let s := set_start_time (now s) s in
        let s := log INFO Starting s in
        let s := start_from env 0 (List.length (publishers s)) s in
        let s := log INFO (StartedStreams (List.length (publishers s))) s in
        match monitoring_loop env fuel s with
        | Some s => Returned s
        | None => OutOfFuel
        end
    end.

Definition get_stream_urls (s : state) : list string :=
  map (fun p => Publisher.rtsp_url (Publisher.conf p)) (publishers s).

(** ** Vocabulary of the properties *)

(** No [video] section and no, or an empty, [video_sources] list. *)
Definition no_video_source (c : config) : Prop :=
  video c = None /\ (video_sources c = None \/ video_sources c = Some []).

(** The stream names in creation order. *)
Definition names (s : state) : list string :=
  map (fun p => Publisher.stream_name (Publisher.conf p)) (publishers s).

(** Every publisher has [running] false. *)
Definition all_stopped (s : state) : Prop :=
  Forall (fun p => Publisher.running p = false) (publishers s).

(** Time stamps of the executions of [stop] that passed its guard. *)
Definition stop_times (s : state) : list Z :=
  map (fun e => fst (fst e))
      (filter (fun e => match snd e with StoppingAll => true | _ => false end)
              (logs s)).

(** Either the orchestrator is running, or all its publishers have been
    stopped. *)
Definition settled (s : state) : Prop := running s = true \/ all_stopped s.

(** The body of the [while] loop past the duration check. *)
Definition tick (env : environ) (report_interval last_report_time : Z)
    (s : state) : state * Z :=
  let '(s1, last) :=
    if now s - last_report_time >=? report_interval
    then (print_status_report env s, now s)
    else (s, last_report_time) in
  (block env TICK_SLEEP (check_stream_health env (check_resource_limits env s1)), last).

(** Memory stays at or below the configured ceiling at all times. *)
Definition calm (env : environ) (c : config) : Prop :=
  forall t, (memory_percent env t <= get2 (limits c) max_memory_percent (80 # 1))%Q.



(** No publisher that was stopped is running afterwards. *)
Definition no_revival (before after : list Publisher.publisher) : Prop :=
  Forall2 (fun p p' => Publisher.running p = false -> Publisher.running p' = false)
          before after.


End Orchestrator.

(** * [main.py] *)

Module Main.

Inductive checked :=
| Passed
| Exit (code : Z) (missing : list string).

(** [Path(p).exists()]. *)
Definition exists_ (probe : string -> probed) (path : string) : bool :=
  match probe path with NoFile => false | _ => true end.

(** [check_video_exists]: [Exit 1] is [sys.exit(1)], with the paths that
    were reported missing. *)
Definition check_video_exists (probe : string -> probed)
    (config : Orchestrator.config) : checked :=
  match Orchestrator.video config with
  | Some video =>
      let video_path := Orchestrator.v_path video in
      if negb (exists_ probe video_path) then Exit 1 [video_path] else Passed
  | None =>
      if Orchestrator.has_sources config then
        let video_sources := Orchestrator.get (Orchestrator.video_sources config) [] in
        let missing_videos :=
          filter (fun path => negb (exists_ probe path))
                 (map Orchestrator.src_video_path video_sources) in
        match missing_videos with
        | [] => Passed
        | _ :: _ => Exit 1 missing_videos
        end
      else Passed
  end.

End Main.

(** * Example data *)

Module Examples.

Definition cam : Publisher.publisher :=
  {| Publisher.conf :=
       {| Publisher.stream_name := "stream1";
          Publisher.video_path := "videos/test.mp4";
          Publisher.rtsp_url := "rtsp://localhost:8554/stream1";
          Publisher.loop := true; Publisher.fps := 30;
          Publisher.codec := "libx264"; Publisher.preset := "ultrafast";
          Publisher.bitrate := "2M"; Publisher.pixel_format := "yuv420p";
          Publisher.video_width := 640; Publisher.video_height := 480;
          Publisher.total_frames := 300 |};
     Publisher.process := None; Publisher.thread := None;
     Publisher.running := false; Publisher.error_count := 0;
     Publisher.start_time := None; Publisher.procs := [];
     Publisher.spawn_ok := true; Publisher.trace := [] |}.

(** [stop()] that runs ahead of the supervision thread, on a process that
    heeds [terminate]. *)
Definition prompt : Publisher.stop_env :=
  {| Publisher.preempt := 0; Publisher.graceful := true |}.

(** A publisher that was started and whose thread has found
    [self.running] true at the loop head and is about to call [Popen]. *)
Definition launching : Publisher.publisher :=
  Publisher.run [Publisher.Start 0; Publisher.Bg Publisher.LoopStep] cam.

(** A host with memory and CPU to spare, on which every video opens and
    nothing happens to the publishers behind the orchestrator's back. *)
Definition quiet : Orchestrator.environ :=
  {| Orchestrator.probe := fun _ => Video 640 480 300;
     Orchestrator.memory_percent := fun _ => (50 # 1)%Q;
     Orchestrator.cpu_percent := fun _ => (10 # 1)%Q;
     Orchestrator.stop_how := fun _ _ => prompt;
     Orchestrator.meanwhile := fun _ _ => [] |}.



(** The single-video format: [n] streams, duration limit [d] (tenths). *)
Definition single_video (n : Z) (d : option Z) : Orchestrator.config :=
  {| Orchestrator.video :=
       Some {| Orchestrator.v_path := "videos/test.mp4";
               Orchestrator.v_loop := None; Orchestrator.v_fps := None |};
     Orchestrator.video_sources := None;
     Orchestrator.rtsp_server :=
       Some {| Orchestrator.base_url := "rtsp://localhost:8554" |};
     Orchestrator.load_test :=
       Some {| Orchestrator.concurrent_streams := Some n;
               Orchestrator.duration := d;
               Orchestrator.report_interval := None |};
     Orchestrator.limits := None;
     Orchestrator.publisher := None;
     Orchestrator.monitoring := None |}.

(** A [video] section, no [load_test] section, at most two streams. *)
Definition no_load_test : Orchestrator.config :=
  {| Orchestrator.video :=
       Some {| Orchestrator.v_path := "videos/test.mp4";
               Orchestrator.v_loop := None; Orchestrator.v_fps := None |};
     Orchestrator.video_sources := None;
     Orchestrator.rtsp_server :=
       Some {| Orchestrator.base_url := "rtsp://localhost:8554" |};
     Orchestrator.load_test := None;
     Orchestrator.limits :=
       Some {| Orchestrator.max_streams := Some 2;
               Orchestrator.max_memory_percent := None;
               Orchestrator.max_cpu_percent := None |};
     Orchestrator.publisher := None;
     Orchestrator.monitoring := None |}.

(** A freshly constructed orchestrator at time 0. *)
Definition fresh (c : Orchestrator.config) : Orchestrator.state :=
  {| Orchestrator.cfg := c; Orchestrator.publishers := [];
     Orchestrator.running := false; Orchestrator.start_time := 0;
     Orchestrator.now := 0; Orchestrator.logs := []; Orchestrator.saved := None |}.

(** The [video_sources] format with three sources and at most two streams. *)
Definition three_sources : Orchestrator.config :=
  {| Orchestrator.video := None;
     Orchestrator.video_sources :=
       Some [ {| Orchestrator.src_name := "lobby";
                 Orchestrator.src_video_path := "videos/lobby.mp4";
                 Orchestrator.src_loop := None; Orchestrator.src_fps := None |};
              {| Orchestrator.src_name := "gate";
                 Orchestrator.src_video_path := "videos/gate.mp4";
                 Orchestrator.src_loop := Some false; Orchestrator.src_fps := Some 25 |};
              {| Orchestrator.src_name := "yard";
                 Orchestrator.src_video_path := "videos/yard.mp4";
                 Orchestrator.src_loop := None; Orchestrator.src_fps := None |} ];
     Orchestrator.rtsp_server :=
       Some {| Orchestrator.base_url := "rtsp://localhost:8554" |};
     Orchestrator.load_test := None;
     Orchestrator.limits :=
       Some {| Orchestrator.max_streams := Some 2;
               Orchestrator.max_memory_percent := None;
               Orchestrator.max_cpu_percent := None |};
     Orchestrator.publisher := None;
     Orchestrator.monitoring := None |}.

(** A host on which [videos/gate.mp4] does not exist. *)
Definition gate_missing : Orchestrator.environ :=
  {| Orchestrator.probe :=
       fun path => if String.eqb path "videos/gate.mp4" then NoFile
                   else Video 640 480 300;
     Orchestrator.memory_percent := fun _ => (50 # 1)%Q;
     Orchestrator.cpu_percent := fun _ => (10 # 1)%Q;
     Orchestrator.stop_how := fun _ _ => prompt;
     Orchestrator.meanwhile := fun _ _ => [] |}.

(** A host without any video file. *)
Definition no_videos : Orchestrator.environ :=
  {| Orchestrator.probe := fun _ => NoFile;
     Orchestrator.memory_percent := fun _ => (50 # 1)%Q;
     Orchestrator.cpu_percent := fun _ => (10 # 1)%Q;
     Orchestrator.stop_how := fun _ _ => prompt;
     Orchestrator.meanwhile := fun _ _ => [] |}.

End Examples.

(** * Properties of the publisher *)

Module PublisherProps.
Import Publisher.

Lemma ffmpeg_command_cam :
  build_ffmpeg_command (conf Examples.cam) =
  ["ffmpeg"; "-hide_banner"; "-loglevel"; "error"; "-re"; "-stream_loop"; "-1";
   "-i"; "videos/test.mp4"; "-c:v"; "libx264"; "-preset"; "ultrafast";
   "-b:v"; "2M"; "-pix_fmt"; "yuv420p"; "-r"; "30"; "-f"; "rtsp"; "-g"; "60";
   "-keyint_min"; "30"; "-sc_threshold"; "0"; "-rtsp_transport"; "tcp";
   "rtsp://localhost:8554/stream1"].
Proof. reflexivity. Qed.

(** ** The error counter *)

Lemma thread_step_error_count (p : publisher) :
  error_count p <= error_count (thread_step p).
Proof.
  unfold thread_step, handler.
  destruct (thread p) as [[ | | | | | ]|]; simpl;
    repeat match goal with
           | |- context [if ?b then _ else _] => destruct b; simpl
           | |- context [match ?x with Some _ => _ | None => _ end] => destruct x; simpl
           end; lia.
Qed.

Lemma thread_steps_error_count (n : nat) (p : publisher) :
  error_count p <= error_count (thread_steps n p).
Proof.
  induction n as [|n IH]; simpl; [lia|].
  etransitivity; [exact IH | apply thread_step_error_count].
Qed.

Lemma terminate_error_count e p : error_count (terminate e p) = error_count p.
Proof.
  unfold terminate.
  destruct (process p); [|reflexivity].
  destruct (nth_error (procs p) n); [|reflexivity].
  destruct (alive p0); [|reflexivity].
  destruct (graceful e); reflexivity.
Qed.

Lemma stop_error_count e p : error_count p <= error_count (stop e p).
Proof.
  unfold stop. cbn [error_count emit].
  set (q := thread_steps (preempt e) _).
  assert (H1 : error_count p <= error_count q)
    by (subst q; etransitivity; [|apply thread_steps_error_count]; simpl; lia).
  assert (H2 : error_count (terminate e q) = error_count q)
    by apply terminate_error_count.
  destruct (thread_alive (terminate e q)).
  - unfold join. pose proof (thread_steps_error_count 4 (terminate e q)). lia.
  - lia.
Qed.

Lemma step_error_count (o : op) (p : publisher) :
  error_count p <= error_count (step o p).
Proof.
  destruct o as [now|e|now| |b]; simpl; try lia.
  - unfold start. destruct (running p); simpl; lia.
  - apply stop_error_count.
  - destruct b as [|h err|b]; simpl; try lia.
    + apply thread_step_error_count.
    + unfold proc_exit. destruct (nth_error (procs p) h) as [pr|]; [|lia].
      destruct (alive pr); simpl; lia.
Qed.

(** C5. Whatever sequence of [start], [stop], [get_stats], [is_healthy],
    supervision-loop statements and outside events a publisher goes
    through, its error counter never goes down: it is at least what it
    was before the sequence, for every prefix and every continuation. *)
Theorem error_count_monotone (ops more : list op) (p : publisher) :
  error_count p <= error_count (run ops p) /\
  error_count (run ops p) <= error_count (run (ops ++ more) p).
Proof.
  assert (H : forall l q, error_count q <= error_count (run l q)).
  { induction l as [|o l IH]; intro q; simpl; [lia|].
    etransitivity; [apply (step_error_count o)| apply IH]. }
  split; [apply H|].
  unfold run at 2. rewrite fold_left_app. apply H.
Qed.

(** ** One iteration of the supervision loop *)

Lemma nth_error_set_nth {A} (l : list A) (i : nat) (x : A) :
  (i < List.length l)%nat -> nth_error (set_nth i x l) i = Some x.
Proof.
  revert i; induction l as [|a l IH]; intros [|i] H; simpl in *; try lia; auto.
  apply IH; lia.
Qed.

Lemma nth_error_snoc {A} (l : list A) (x : A) :
  nth_error (l ++ [x]) (List.length l) = Some x.
Proof. induction l; simpl; auto. Qed.

Lemma substring_length (n : nat) (s : string) :
  (String.length (substring 0 n s) <= n)%nat.
Proof.
  revert s; induction n as [|n IH]; intros [|a s]; simpl; try lia.
  specialize (IH s); lia.
Qed.

Lemma substring_prefix (n : nat) (s : string) :
  exists rest, s = substring 0 n s ++ rest.
Proof.
  revert s; induction n as [|n IH]; intros s.
  - exists s. destruct s; reflexivity.
  - destruct s as [|a s]; [exists ""; reflexivity|].
    destruct (IH s) as [rest E]. exists rest. simpl. now rewrite <- E.
Qed.

Lemma slept_fields n p :
  conf (slept n p) = conf p /\ process (slept n p) = process p /\
  thread (slept n p) = thread p /\ running (slept n p) = running p /\
  error_count (slept n p) = error_count p /\ start_time (slept n p) = start_time p /\
  procs (slept n p) = procs p /\ spawn_ok (slept n p) = spawn_ok p /\
  trace (slept n p) = (trace p ++ repeat (Sleep POLL_INTERVAL) n)%list.
Proof.
  induction n as [|n IH]; simpl.
  - rewrite app_nil_r. repeat split.
  - destruct IH as (?&?&?&?&?&?&?&?&E). repeat split; auto.
    rewrite E, <- app_assoc. f_equal.
    change [Sleep POLL_INTERVAL] with (repeat (Sleep POLL_INTERVAL) 1).
    rewrite <- repeat_app. now rewrite Nat.add_1_r.
Qed.

Lemma poll_live (n : nat) (p : publisher) (pr : proc) :
  thread p = Some Poll -> running p = true ->
  current p = Some pr -> alive pr = true ->
  thread_steps n p = slept n p.
Proof.
  intros Ht Hr Hc Ha. induction n as [|n IH]; [reflexivity|].
  unfold thread_steps in *. simpl. rewrite IH.
  destruct (slept_fields n p) as (_&Hp&Ht'&Hr'&_&_&Hps&_&_).
  unfold thread_step. fold (slept n p).
  unfold current in *. rewrite Ht', Ht, Hr', Hr, Hp, Hps.
  destruct (process p); [|discriminate]. rewrite Hc, Ha. reflexivity.
Qed.

Lemma leaving_step (p : publisher) (r : nat) :
  running p = false -> rank p = Some r ->
  let q := thread_step p in
  running q = false /\ rank q = Some (Nat.pred r) /\
  error_count q = error_count p /\ procs q = procs p /\
  process q = process p /\ trace q = trace p.
Proof.
  unfold rank, thread_step. intros Hr Hk.
  destruct (thread p) as [[ | | | | | ]|] eqn:Ht; try discriminate;
    rewrite ?Hr; simpl; rewrite ?Ht; injection Hk as <-; simpl.
  all: repeat split; assumption.
Qed.

Lemma leaving_steps (k : nat) (p : publisher) (r : nat) :
  running p = false -> rank p = Some r ->
  let q := thread_steps k p in
  running q = false /\ rank q = Some (r - k)%nat /\
  error_count q = error_count p /\ procs q = procs p /\
  process q = process p /\ trace q = trace p.
Proof.
  intros Hr Hk. induction k as [|k IH]; simpl.
  - rewrite Nat.sub_0_r. repeat split; assumption.
  - destruct IH as (H1&H2&H3&H4&H5&H6).
    destruct (leaving_step _ _ H1 H2) as (G1&G2&G3&G4&G5&G6).
    unfold thread_steps in *. simpl.
    repeat split; try congruence.
    rewrite G2. f_equal. lia.
Qed.

Lemma terminate_fields e p :
  thread (terminate e p) = thread p /\ running (terminate e p) = running p /\
  process (terminate e p) = process p /\
  List.length (procs (terminate e p)) = List.length (procs p).
Proof.
  assert (L : forall A (l : list A) i x, List.length (set_nth i x l) = List.length l).
  { induction l as [|a l IH]; intros [|i] x; simpl; auto. }
  unfold terminate.
  destruct (process p) as [h|] eqn:E; auto.
  destruct (nth_error (procs p) h) as [pr|]; auto.
  destruct (alive pr); auto.
  destruct (graceful e); simpl; rewrite L; repeat split; auto.
Qed.

Lemma stop_leaving (e : stop_env) (p : publisher) (r : nat) :
  rank p = Some r ->
  let q := stop e p in
  running q = false /\ thread q = Some Finished /\
  error_count q = error_count p /\
  List.length (procs q) = List.length (procs p).
Proof.
  intros Hk. unfold stop.
  set (p1 := set_running false (emit (Log INFO Stopping) p)).
  assert (R1 : running p1 = false) by reflexivity.
  assert (K1 : rank p1 = Some r) by exact Hk.
  destruct (leaving_steps (preempt e) p1 r R1 K1) as (A1&A2&A3&A4&A5&A6).
  set (p2 := thread_steps (preempt e) p1) in *.
  destruct (terminate_fields e p2) as (T1&T2&T3&T4).
  pose proof (terminate_error_count e p2) as T5.
  set (p3 := terminate e p2) in *.
  assert (K3 : rank p3 = Some (r - preempt e)%nat)
    by (unfold rank in *; now rewrite T1).
  assert (R3 : running p3 = false) by congruence.
  destruct (leaving_steps 4 p3 _ R3 K3) as (B1&B2&B3&B4&B5&B6).
  assert (r <= 3)%nat.
  { unfold rank in Hk. destruct (thread p) as [[ | | | | | ]|];
      inversion Hk; lia. }
  assert (F : forall x, rank x = Some 0%nat -> thread x = Some Finished).
  { intro x. unfold rank. destruct (thread x) as [[ | | | | | ]|]; congruence. }
  assert (E1 : error_count p1 = error_count p) by reflexivity.
  assert (L1 : procs p1 = procs p) by reflexivity.
  destruct (thread_alive p3) eqn:Al; cbn [running thread error_count procs emit].
  - unfold join. split; [assumption|]. split; [|split].
    + apply F. rewrite B2. f_equal. lia.
    + congruence.
    + rewrite B4. congruence.
  - split; [assumption|]. split; [|split].
    + unfold thread_alive in Al. unfold rank in K3.
      destruct (thread p3) as [[ | | | | | ]|]; congruence.
    + congruence.
    + congruence.
Qed.

Lemma launch_step (p : publisher) :
  running p = true -> thread p = Some LoopHead -> spawn_ok p = true ->
  thread_steps 2 p =
  set_thread (Some Poll)
    (emit (Popen (build_ffmpeg_command (conf p)))
       (set_process (Some (List.length (procs p)))
          (set_procs (procs p ++ [{| alive := true; stderr := "" |}])
             (emit (Log DEBUG (FfmpegCommand (build_ffmpeg_command (conf p)))) p)))).
Proof.
  intros Hr Ht Hs. unfold thread_steps. simpl.
  unfold thread_step at 2. rewrite Ht, Hr.
  unfold thread_step. cbn [thread set_thread emit spawn_ok conf procs].
  rewrite Hs. reflexivity.
Qed.

Lemma crash_steps (p : publisher) (h : nat) (pr : proc) :
  running p = true -> thread p = Some Poll ->
  process p = Some h -> nth_error (procs p) h = Some pr -> alive pr = false ->
  thread_steps 3 p =
  set_thread (Some LoopHead)
    (emit (Sleep RESTART_DELAY)
       (set_error_count (error_count p + 1)
          (emit (Log ERROR (EndedUnexpectedly (substring 0 EXCERPT (stderr pr)))) p))).
Proof.
  intros Hr Ht Hp Hn Ha. unfold thread_steps. simpl.
  unfold thread_step at 3. unfold current. rewrite Ht, Hr, Hp, Hn, Ha.
  unfold thread_step at 2. cbn [thread set_thread running].
  rewrite Hr.
  unfold thread_step, current. cbn [thread set_thread running process procs].
  rewrite Hp, Hn, Ha. reflexivity.
Qed.

(** C1. One iteration of the supervision loop of a publisher whose
    [running] flag is true, on a host that can spawn the encoder: the
    process is launched; while [running] holds and the process lives the
    thread only sleeps 0.1 time units per round; if the process then ends
    with [running] still true, the error counter goes up by exactly one,
    an excerpt of at most 500 characters of its stderr is logged, the
    thread sleeps 2 time units, is back at the loop head and launches
    again; if instead [running] is made false ([stop]), the thread
    finishes, the counter is unchanged and nothing more is launched. *)
Theorem publish_loop_iteration (p : publisher) (n : nat) (err : string) :
  running p = true -> thread p = Some LoopHead -> spawn_ok p = true ->
  let h := List.length (procs p) in
  let cmd := build_ffmpeg_command (conf p) in
  let fresh := {| alive := true; stderr := "" |} in
  let launched := thread_steps 2 p in
  let polled := thread_steps n launched in
  let crashed := thread_steps 3 (proc_exit h err polled) in
  let again := thread_steps 2 crashed in
  (process launched = Some h /\ current launched = Some fresh /\
   trace launched = (trace p ++ [Log DEBUG (FfmpegCommand cmd); Popen cmd])%list) /\
  (thread polled = Some Poll /\ error_count polled = error_count p /\
   trace polled = (trace launched ++ repeat (Sleep 1) n)%list) /\
  (error_count crashed = error_count p + 1 /\
   (exists excerpt rest,
       err = excerpt ++ rest /\ (String.length excerpt <= 500)%nat /\
       trace crashed =
       (trace polled ++ [Log ERROR (EndedUnexpectedly excerpt); Sleep 20])%list) /\
   thread crashed = Some LoopHead /\
   process again = Some (S h) /\ current again = Some fresh /\
   trace again = (trace crashed ++ [Log DEBUG (FfmpegCommand cmd); Popen cmd])%list) /\
  (forall e : stop_env,
      let stopped := stop e polled in
      running stopped = false /\ thread stopped = Some Finished /\
      error_count stopped = error_count p /\
      List.length (procs stopped) = S h).
Proof.
  intros Hr Ht Hs h cmd fresh launched polled crashed again.
  assert (EL : launched = _) by (apply launch_step; assumption).
  assert (CL : current launched = Some fresh).
  { rewrite EL. unfold current. cbn [process set_thread emit set_process procs set_procs].
    apply nth_error_snoc. }
  assert (EP : polled = slept n launched).
  { apply (poll_live n launched fresh); auto; rewrite EL; simpl; auto. }
  destruct (slept_fields n launched) as (S1&S2&S3&S4&S5&S6&S7&S8&S9).
  rewrite <- EP in *.
  assert (PL : process launched = Some h) by (rewrite EL; reflexivity).
  assert (TL : trace launched
               = (trace p ++ [Log DEBUG (FfmpegCommand cmd); Popen cmd])%list).
  { rewrite EL. simpl. now rewrite <- app_assoc. }
  assert (PS : procs polled = (procs p ++ [fresh])%list)
    by (rewrite S7, EL; reflexivity).
  assert (RP : running polled = true) by (rewrite S4, EL; exact Hr).
  assert (TP : thread polled = Some Poll) by (rewrite S3, EL; reflexivity).
  assert (CP : error_count polled = error_count p) by (rewrite S5, EL; reflexivity).
  (* the process ends by itself *)
  set (dead := {| alive := false; stderr := err |}).
  assert (EX : proc_exit h err polled
               = set_procs (set_nth h dead (procs polled)) polled).
  { unfold proc_exit. rewrite PS. unfold h. rewrite nth_error_snoc. reflexivity. }
  assert (HN : nth_error (set_nth h dead (procs polled)) h = Some dead).
  { apply nth_error_set_nth. rewrite PS, length_app. simpl. unfold h. lia. }
  assert (X1 : running (proc_exit h err polled) = true) by (now rewrite EX).
  assert (X2 : thread (proc_exit h err polled) = Some Poll) by (now rewrite EX).
  assert (X3 : process (proc_exit h err polled) = Some h)
    by (rewrite EX; simpl; congruence).
  assert (X4 : nth_error (procs (proc_exit h err polled)) h = Some dead)
    by (now rewrite EX).
  assert (EC : crashed = _)
    by exact (crash_steps (proc_exit h err polled) h dead X1 X2 X3 X4 eq_refl).
  assert (Y1 : running crashed = true) by (rewrite EC; exact X1).
  assert (Y2 : thread crashed = Some LoopHead) by (rewrite EC; reflexivity).
  assert (Y3 : spawn_ok crashed = true)
    by (rewrite EC, EX; simpl; rewrite S8, EL; exact Hs).
  assert (LX : List.length (procs crashed) = S h).
  { rewrite EC, EX. simpl.
    assert (L : forall A (l : list A) i x, List.length (set_nth i x l) = List.length l).
    { induction l as [|a l IH]; intros [|i] x; simpl; auto. }
    rewrite L, PS, length_app. simpl. unfold h. lia. }
  assert (EA : again = _) by exact (launch_step crashed Y1 Y2 Y3).
  split; [|split; [|split]].
  - auto.
  - split; [assumption|]. split; [assumption|]. exact S9.
  - split; [rewrite EC, EX; simpl; lia|]. split; [|split; [|split; [|split]]].
    + destruct (substring_prefix EXCERPT err) as [rest E].
      exists (substring 0 EXCERPT err), rest.
      split; [exact E|]. split; [apply substring_length|].
      rewrite EC, EX. simpl. now rewrite <- app_assoc.
    + rewrite EC. reflexivity.
    + rewrite EA. cbn [process set_thread emit set_process]. now rewrite LX.
    + rewrite EA. unfold current.
      cbn [process procs set_thread emit set_process set_procs].
      apply nth_error_snoc.
    + rewrite EA. cbn [trace conf set_thread emit set_process set_procs].
      rewrite <- app_assoc.
      replace (conf crashed) with (conf p); [reflexivity|].
      rewrite EC, EX. simpl. rewrite S1, EL. reflexivity.
  - intros e stopped.
    destruct (stop_leaving e polled 3) as (A&B&C&D).
    { unfold rank. now rewrite TP. }
    assert (LP : List.length (procs polled) = S h)
      by (rewrite PS, length_app; simpl; unfold h; lia).
    unfold stopped. repeat split; congruence.
Qed.

Lemma publish_loop_iteration_witness :
  let p := start 0 Examples.cam in
  running p = true /\ thread p = Some LoopHead /\ spawn_ok p = true /\
  error_count
    (thread_steps 3
       (proc_exit 0 "Connection refused" (thread_steps 7 (thread_steps 2 p))))
  = error_count p + 1.
Proof.
  intro p.
  exact (conj eq_refl (conj eq_refl (conj eq_refl
           (proj1 (proj1 (proj2 (proj2
              (publish_loop_iteration p 7 "Connection refused"
                 eq_refl eq_refl eq_refl)))))))).
Defined.

(** ** [start] and [stop] against the supervision thread *)

Lemma start_while_running (now : Z) (p : publisher) :
  running p = true -> start now p = emit (Log WARNING AlreadyRunning) p.
Proof. intro H. unfold start. now rewrite H. Qed.

Lemma thread_step_running (p : publisher) : running (thread_step p) = running p.
Proof.
  unfold thread_step, handler.
  destruct (thread p) as [[ | | | | | ]|]; simpl;
    repeat match goal with
           | |- context [if ?b then _ else _] => destruct b eqn:?; simpl
           | |- context [match ?x with Some _ => _ | None => _ end] =>
               destruct x eqn:?; simpl
           end; congruence.
Qed.

Lemma thread_steps_running (n : nat) (p : publisher) :
  running (thread_steps n p) = running p.
Proof.
  induction n as [|n IH]; [reflexivity|].
  unfold thread_steps in *. simpl. now rewrite thread_step_running.
Qed.

(** [stop] always leaves [running] false. *)
Lemma stop_running (e : stop_env) (p : publisher) : running (stop e p) = false.
Proof.
  unfold stop. cbn [running emit].
  match goal with |- context [thread_alive ?q] => set (p3 := q) end.
  assert (H : running p3 = false).
  { subst p3. destruct (terminate_fields e (thread_steps (preempt e)
                 (set_running false (emit (Log INFO Stopping) p)))) as (_&H&_).
    rewrite H, thread_steps_running. reflexivity. }
  destruct (thread_alive p3); [|exact H].
  unfold join. now rewrite thread_steps_running.
Qed.

Lemma bg_step_running (b : background) (p : publisher) :
  running (bg_step b p) = running p.
Proof.
  destruct b as [|h err|b]; simpl; auto using thread_step_running.
  unfold proc_exit. destruct (nth_error (procs p) h) as [pr|]; auto.
  destruct (alive pr); reflexivity.
Qed.

(** ** When at most one process is alive, and when [stop] is idempotent *)





Lemma idle_owned (p : publisher) : idle p -> owned p.
Proof. intros H h pr E A. rewrite (H h pr E) in A. discriminate. Qed.














Lemma init_tidy (probe : string -> probed) (n v u : string) (l : bool) (f : Z)
    (c pr b pf : string) (p : publisher) :
  init probe n v u l f c pr b pf = inr p -> tidy p.
Proof.
  unfold init. destruct (probe v); try discriminate.
  intro E. injection E as <-.
  assert (I : forall q, procs q = [] -> idle q)
    by (intros q Hq h x Hx; rewrite Hq in Hx; destruct h; discriminate).
  split; [apply idle_owned, I; reflexivity|].
  split; intros; apply I; reflexivity.
Qed.







(** C7. [stop()] called on a publisher whose thread has just found
    [running] true at the loop head and is about to launch: the call
    returns with [running] false and the thread finished, but with the
    process the thread launched meanwhile alive; only a second [stop()]
    ends that process.  One call and two calls differ. *)
Theorem stop_overtakes_launch :
  let once := stop Examples.prompt Examples.launching in
  let twice := stop Examples.prompt once in
  (running Examples.launching = true /\ thread Examples.launching = Some Launch /\
   live Examples.launching = 0%nat) /\
  (running once = false /\ thread once = Some Finished /\ live once = 1%nat) /\
  (running twice = false /\ thread twice = Some Finished /\ live twice = 0%nat).
Proof. vm_compute. repeat split. Qed.

(** C6. A publisher that is started, stopped while its thread is about
    to launch, and started again has two live encoder processes: the one
    the first thread launched behind [stop()], and the one of the second
    thread. *)
Theorem restart_leaves_two_processes :
  let p := run [Start 0; Bg LoopStep; Stop Examples.prompt;
                Start 10; Bg LoopStep; Bg LoopStep] Examples.cam in
  running p = true /\ thread p = Some Poll /\ process p = Some 1%nat /\
  map alive (procs p) = [true; true] /\ live p = 2%nat.
Proof. vm_compute. repeat split. Qed.

End PublisherProps.

(** * Properties of the orchestrator *)

Module OrchestratorProps.
Import Orchestrator.

(** ** Construction *)

Lemma no_video_source_test (c : config) :
  negb (has_sources c) && negb (present (video c)) = true <-> no_video_source c.
Proof.
  unfold no_video_source, has_sources, present.
  destruct (video c); destruct (video_sources c) as [[|src l]|]; simpl;
    split; try discriminate; auto;
    intros [H [G|G]]; discriminate.
Qed.

Lemma validate_config_raises (c : config) :
  (exists e, validate_config c = Some e) <->
  no_video_source c \/ rtsp_server c = None
  \/ get2 (load_test c) concurrent_streams 1 > get2 (limits c) max_streams 50.
Proof.
  unfold validate_config.
  destruct (negb (has_sources c) && negb (present (video c))) eqn:E.
  - apply no_video_source_test in E. split; eauto.
  - assert (N : ~ no_video_source c)
      by (intro H; apply no_video_source_test in H; congruence).
    destruct (rtsp_server c) as [srv|] eqn:Er; simpl.
    + destruct (Z.gtb_spec (get2 (load_test c) concurrent_streams 1)
                  (get2 (limits c) max_streams 50)) as [Hgt|Hle].
      * split; eauto. intros _. right. right. lia.
      * split; [intros [e He]; discriminate|].
        intros [H|[H|H]]; [tauto|discriminate|lia].
    + split; eauto.
Qed.


Lemma init_inl (c : config) (t : Z) :
  (exists e, init c t = inl e) <-> (exists e, validate_config c = Some e).
Proof.
  unfold init. destruct (validate_config c) as [e|]; split; eauto;
    intros [e' H]; discriminate.
Qed.

Lemma init_inr (c : config) (t : Z) (s : state) :
  init c t = inr s -> cfg s = c /\ publishers s = [] /\ running s = false.
Proof.
  unfold init. destruct (validate_config c); [discriminate|].
  intro H. injection H as <-. auto.
Qed.


(** ** [create_publishers] *)

(** The single-video branch, for any stream count. *)
Lemma create_from_video (env : environ) (s : state) (v : video_config)
    (server : server_config) (w h n : Z) :
  video (cfg s) = Some v -> rtsp_server (cfg s) = Some server ->
  probe env (v_path v) = Video w h n ->
  exists s',
    create_publishers env s = (s', None) /\
    names s' =
    (names s ++ map (fun i => ("stream" ++ str i)%string)
                    (range1 (get2 (load_test (cfg s)) concurrent_streams 3)))%list /\
    get_stream_urls s' =
    (get_stream_urls s
     ++ map (fun i => (base_url server ++ "/" ++ "stream" ++ str i)%string)
            (range1 (get2 (load_test (cfg s)) concurrent_streams 3)))%list /\
    running s' = running s.
Proof.
  intros Hv Hr Hp. unfold create_publishers. rewrite Hr, Hv.
  generalize (range1 (get2 (load_test (cfg s)) concurrent_streams 3)) as l.
  generalize (get2 (publisher (cfg s)) c_codec "libx264"),
             (get2 (publisher (cfg s)) c_preset "ultrafast"),
             (get2 (publisher (cfg s)) c_bitrate "2M"),
             (get2 (publisher (cfg s)) c_pixel_format "yuv420p").
  intros co pr bi pf l. clear Hv Hr.
  revert s. induction l as [|i l IH]; intro s; simpl.
  - eexists. split; [reflexivity|]. unfold names, get_stream_urls. simpl.
    now rewrite !app_nil_r.
  - unfold Publisher.init at 1. rewrite Hp.
    match goal with |- context [append_all _ ?s1] =>
      destruct (IH s1) as (s' & E & N & U & R) end.
    exists s'. split; [exact E|].
    rewrite N, U, R. unfold names, get_stream_urls. simpl.
    rewrite !map_app. simpl. rewrite <- !app_assoc. auto.
Qed.

(** C9. With the single-video format, [concurrent_streams = 3], a video
    that opens and no publishers yet, [create_publishers] returns with
    exactly three publishers, named stream1, stream2, stream3 in this
    order, with endpoints base/stream1, base/stream2, base/stream3. *)
Theorem three_streams (env : environ) (s : state) (v : video_config)
    (base : string) (lt : load_test_config) (w h n : Z) :
  video (cfg s) = Some v ->
  rtsp_server (cfg s) = Some {| base_url := base |} ->
  load_test (cfg s) = Some lt -> concurrent_streams lt = Some 3 ->
  probe env (v_path v) = Video w h n ->
  publishers s = [] ->
  exists s',
    create_publishers env s = (s', None) /\
    List.length (publishers s') = 3%nat /\
    names s' = ["stream1"; "stream2"; "stream3"] /\
    get_stream_urls s' =
    [base ++ "/stream1"; base ++ "/stream2"; base ++ "/stream3"].
Proof.
  intros Hv Hr Hl Hc Hp He.
  destruct (create_from_video env s v _ w h n Hv Hr Hp) as (s' & E & N & U & _).
  unfold get2 in N, U. rewrite Hl, Hc in N, U.
  unfold names, get_stream_urls in N, U. rewrite He in N, U. simpl in N, U.
  exists s'. split; [exact E|]. split; [|split].
  - rewrite <- (length_map (fun p => Publisher.stream_name (Publisher.conf p))).
    fold (names s'). unfold names. rewrite N. reflexivity.
  - exact N.
  - exact U.
Qed.

Lemma three_streams_witness :
  exists s',
    create_publishers Examples.quiet (Examples.fresh (Examples.single_video 3 None))
    = (s', None) /\
    List.length (publishers s') = 3%nat /\
    names s' = ["stream1"; "stream2"; "stream3"] /\
    get_stream_urls s' =
    ["rtsp://localhost:8554/stream1"; "rtsp://localhost:8554/stream2";
     "rtsp://localhost:8554/stream3"].
Proof.
  exact (three_streams Examples.quiet (Examples.fresh (Examples.single_video 3 None))
           _ _ _ 640 480 300 eq_refl eq_refl eq_refl eq_refl eq_refl eq_refl).
Defined.

(** C10. With a [video] section and no [load_test] section, the
    constructor checks a stream count of 1 against the maximum while
    [create_publishers] builds 3 publishers; with [max_streams = 2]
    construction succeeds and three publishers are created. *)
Theorem default_count_mismatch (env : environ) (c : config) (v : video_config)
    (server : server_config) (t w h n : Z) :
  video c = Some v -> load_test c = None -> rtsp_server c = Some server ->
  probe env (v_path v) = Video w h n ->
  let limit := get2 (limits c) max_streams 50 in
  ((exists e, init c t = inl e) <-> 1 > limit) /\
  (forall s, cfg s = c -> publishers s = [] ->
     exists s', create_publishers env s = (s', None) /\
                names s' = ["stream1"; "stream2"; "stream3"]) /\
  (limit = 2 ->
   exists s s', init c t = inr s /\ create_publishers env s = (s', None) /\
                List.length (publishers s') = 3%nat).
Proof.
  intros Hv Hl Hr Hp limit.
  assert (A : (exists e, init c t = inl e) <-> 1 > limit).
  { destruct (validate_config_raises c) as [F B]. rewrite <- init_inl in F, B.
    unfold no_video_source in F, B.
    unfold get2 in F, B. rewrite Hl in F, B. fold (get2 (limits c) max_streams 50) in F, B.
    fold limit in F, B. split.
    - intro H. destruct (F H) as [[G _]|[G|G]]; congruence.
    - intro H. apply B. auto. }
  assert (C : forall s, cfg s = c -> publishers s = [] ->
              exists s', create_publishers env s = (s', None) /\
                         names s' = ["stream1"; "stream2"; "stream3"]).
  { intros s Hc He. subst c.
    destruct (create_from_video env s v server w h n Hv Hr Hp) as (s' & E & N & _).
    exists s'. split; [exact E|]. rewrite N. unfold get2. rewrite Hl.
    unfold names. rewrite He. reflexivity. }
  split; [exact A|]. split; [exact C|].
  intro L.
  destruct (init c t) as [e|s] eqn:Ei.
  - assert (1 > limit) by (apply A; eauto). lia.
  - destruct (init_inr c t s Ei) as (I1 & I2 & _).
    destruct (C s I1 I2) as (s' & E & N).
    exists s, s'. repeat split; auto.
    rewrite <- (length_map (fun p => Publisher.stream_name (Publisher.conf p))).
    fold (names s'). rewrite N. reflexivity.
Qed.

Lemma default_count_mismatch_witness :
  get2 (limits Examples.no_load_test) max_streams 50 = 2 /\
  exists s s',
    init Examples.no_load_test 0 = inr s /\
    create_publishers Examples.quiet s = (s', None) /\
    List.length (publishers s') = 3%nat.
Proof.
  split; [reflexivity|].
  exact (proj2 (proj2
           (default_count_mismatch Examples.quiet Examples.no_load_test _ _ 0 640 480 300
              eq_refl eq_refl eq_refl eq_refl)) eq_refl).
Defined.

(** ** Frame lemmas *)

Lemma Forall_mapi_from {A} (P : A -> Prop) (f : nat -> A -> A) (l : list A) (k : nat) :
  (forall i x, P x -> P (f i x)) -> Forall P l -> Forall P (mapi_from k f l).
Proof.
  intros Hf H. revert k. induction H as [|x l Hx Hl IH]; intro k; simpl;
    constructor; auto.
Qed.

Lemma Forall_mapi_from_all {A} (P : A -> Prop) (f : nat -> A -> A) (l : list A) (k : nat) :
  (forall i x, P (f i x)) -> Forall P (mapi_from k f l).
Proof.
  intros Hf. revert k. induction l as [|x l IH]; intro k; simpl; constructor; auto.
Qed.

Lemma Forall2_mapi_from {A} (R : A -> A -> Prop) (f : nat -> A -> A) (l : list A) (k : nat) :
  (forall i x, R x (f i x)) -> Forall2 R l (mapi_from k f l).
Proof.
  intros Hf. revert k. induction l as [|x l IH]; intro k; simpl; constructor; auto.
Qed.


Lemma bg_run_running (bs : list Publisher.background) (p : Publisher.publisher) :
  Publisher.running (bg_run bs p) = Publisher.running p.
Proof.
  unfold bg_run. revert p. induction bs as [|b bs IH]; intro p; simpl; [reflexivity|].
  rewrite IH. apply PublisherProps.bg_step_running.
Qed.

Lemma block_frame (env : environ) (d : Z) (s : state) :
  cfg (block env d s) = cfg s /\ running (block env d s) = running s /\
  start_time (block env d s) = start_time s /\ now (block env d s) = now s + d /\
  logs (block env d s) = logs s /\
  (all_stopped s -> all_stopped (block env d s)).
Proof.
  unfold block, all_stopped. simpl. repeat split; auto.
  intro H. apply Forall_mapi_from; auto.
  intros i x Hx. now rewrite bg_run_running.
Qed.

Lemma stop_frame (env : environ) (s : state) :
  cfg (stop env s) = cfg s /\ running (stop env s) = false /\
  start_time (stop env s) = start_time s /\ now (stop env s) = now s /\
  (running s = true -> all_stopped (stop env s)) /\
  (running s = false -> stop env s = s).
Proof.
  unfold stop. destruct (running s) eqn:R; simpl.
  - unfold generate_final_report.
    match goal with |- context [if ?b then _ else _] => destruct b end;
      simpl; repeat split; auto; try discriminate;
      intros _; unfold all_stopped; simpl; apply Forall_mapi_from_all;
      intros i x; apply PublisherProps.stop_running.
  - repeat split; auto. discriminate.
Qed.


Lemma Qgtb_false (a b : Q) : Qgtb a b = false <-> (a <= b)%Q.
Proof.
  unfold Qgtb. rewrite negb_false_iff. apply Qle_bool_iff.
Qed.

(** ** The health audit *)

Lemma quarantined_iff (p : Publisher.publisher) :
  quarantined p = true <-> Publisher.error_count p >= 10.
Proof.
  unfold quarantined, Publisher.is_healthy, Publisher.MAX_ERRORS.
  destruct (Z.geb_spec (Publisher.error_count p) 10) as [H|H];
    destruct (Z.ltb_spec (Publisher.error_count p) 10) as [G|G]; try lia;
    rewrite ?andb_false_r, ?andb_true_r; simpl; split; try lia; auto; discriminate.
Qed.

Lemma filter_nil_all {A} (f : A -> bool) (l : list A) :
  filter f l = [] -> Forall (fun x => f x = false) l.
Proof.
  induction l as [|x l IH]; simpl; [constructor|].
  destruct (f x) eqn:E; [discriminate|]. constructor; auto.
Qed.

(** C4. The health audit stops every publisher whose error count has
    reached 10 ([running] becomes false), leaves every other publisher
    exactly as it was, and does not touch the orchestrator's own
    [running] flag. *)
Theorem health_audit_frame (env : environ) (s : state) :
  let s' := check_stream_health env s in
  running s' = running s /\
  Forall2 (fun p p' =>
             (Publisher.error_count p >= 10 -> Publisher.running p' = false) /\
             (Publisher.error_count p < 10 -> p' = p))
          (publishers s) (publishers s').
Proof.
  unfold check_stream_health.
  destruct (filter (fun p => negb (Publisher.is_healthy p)) (publishers s))
    as [|u us] eqn:E.
  - split; [reflexivity|].
    apply filter_nil_all in E.
    induction E as [|p l Hp Hl IH]; constructor; auto.
    split; [|reflexivity].
    intro H. apply quarantined_iff in H. unfold quarantined in H.
    rewrite Hp in H. discriminate.
  - cbn [publishers running set_publishers].
    set (s1 := fold_left _ _ _).
    assert (R : forall l s0, running (fold_left
                (fun s p => log ERROR (TooManyErrors
                   (Publisher.stream_name (Publisher.conf p))) s) l s0) = running s0)
      by (induction l as [|x l IH]; intro s0; simpl; [reflexivity|now rewrite IH]).
    assert (P : forall l s0, publishers (fold_left
                (fun s p => log ERROR (TooManyErrors
                   (Publisher.stream_name (Publisher.conf p))) s) l s0) = publishers s0)
      by (induction l as [|x l IH]; intro s0; simpl; [reflexivity|now rewrite IH]).
    split; [subst s1; now rewrite R|].
    replace (publishers s1) with (publishers s) by (subst s1; now rewrite P).
    apply Forall2_mapi_from. intros i p. split.
    + intro H. apply quarantined_iff in H. rewrite H.
      apply PublisherProps.stop_running.
    + intro H. destruct (quarantined p) eqn:Q; [|reflexivity].
      apply quarantined_iff in Q. lia.
Qed.

(** ** The resource check *)



(** ** The monitoring loop and the duration limit *)

Lemma print_status_report_frame (env : environ) (s : state) :
  let s' := print_status_report env s in
  cfg s' = cfg s /\ running s' = running s /\ start_time s' = start_time s /\
  now s' = now s + CPU_INTERVAL /\ (all_stopped s -> all_stopped s').
Proof.
  destruct (block_frame env CPU_INTERVAL s) as (B1 & B2 & B3 & B4 & B5 & B6).
  unfold print_status_report. cbn [cfg running start_time now log].
  repeat split; auto.
Qed.

Lemma check_resource_limits_frame (env : environ) (s : state) :
  let s' := check_resource_limits env s in
  cfg s' = cfg s /\ start_time s' = start_time s /\
  now s' = now s + CPU_INTERVAL /\
  (settled s -> settled s') /\
  ((memory_percent env (now s)
    <= get2 (limits (cfg s)) max_memory_percent (80 # 1))%Q ->
   running s' = running s).
Proof.
  unfold check_resource_limits.
  set (memory := memory_percent env (now s)).
  set (max_memory := get2 (limits (cfg s)) max_memory_percent (80 # 1)%Q).
  set (s1 := if Qgtb memory max_memory
             then stop env (log ERROR (MemoryExceeded memory max_memory) s)
             else s).
  assert (H1 : cfg s1 = cfg s /\ start_time s1 = start_time s /\ now s1 = now s /\
               (settled s -> settled s1) /\
               ((memory <= max_memory)%Q -> running s1 = running s)).
  { subst s1. destruct (Qgtb memory max_memory) eqn:E.
    - destruct (stop_frame env (log ERROR (MemoryExceeded memory max_memory) s))
        as (F1 & F2 & F3 & F4 & F5 & F6).
      repeat split; auto.
      + intros [H|H]; right.
        * apply F5. exact H.
        * destruct (running s) eqn:R; [apply F5; exact R|].
          rewrite F6; [exact H|exact R].
      + intro H. apply Qgtb_false in H. congruence.
    - repeat split; auto. }
  destruct H1 as (C1 & C2 & C3 & C4 & C5).
  destruct (block_frame env CPU_INTERVAL s1) as (B1 & B2 & B3 & B4 & B5 & B6).
  assert (S2 : settled s -> settled (block env CPU_INTERVAL s1)).
  { intro H. destruct (C4 H) as [G|G]; [left; congruence|right; auto]. }
  match goal with |- context [if ?b then _ else _] => destruct b end;
    cbn [cfg running start_time now log]; unfold settled, all_stopped in *;
    cbn [running publishers log];
    (split; [congruence|]); (split; [congruence|]); (split; [congruence|]);
    (split; [exact S2|]); intro H; rewrite B2; auto.
Qed.

Lemma check_stream_health_frame (env : environ) (s : state) :
  let s' := check_stream_health env s in
  cfg s' = cfg s /\ running s' = running s /\ start_time s' = start_time s /\
  now s' = now s /\ (all_stopped s -> all_stopped s').
Proof.
  unfold check_stream_health.
  destruct (filter (fun p => negb (Publisher.is_healthy p)) (publishers s))
    as [|u us]; [repeat split; auto|].
  set (s0 := log WARNING (FoundUnhealthy (List.length (u :: us))) s).
  assert (F : forall l x,
             let y := fold_left
                        (fun s p => log ERROR (TooManyErrors
                           (Publisher.stream_name (Publisher.conf p))) s) l x in
             cfg y = cfg x /\ running y = running x /\
             start_time y = start_time x /\ now y = now x /\
             publishers y = publishers x).
  { induction l as [|a l IH]; intro x; simpl; [repeat split|].
    destruct (IH (log ERROR (TooManyErrors
                (Publisher.stream_name (Publisher.conf a))) x))
      as (A1 & A2 & A3 & A4 & A5).
    repeat split; assumption. }
  destruct (F (filter quarantined (publishers s0)) s0) as (A1 & A2 & A3 & A4 & A5).
  cbn [cfg running start_time now set_publishers publishers].
  rewrite A1, A2, A3, A4, A5.
  split; [reflexivity|]. split; [reflexivity|]. split; [reflexivity|].
  split; [reflexivity|].
  unfold all_stopped. cbn [publishers set_publishers log]. intro H.
  apply Forall_mapi_from; [|exact H].
  intros i x Hx. destruct (quarantined x); [|exact Hx].
  apply PublisherProps.stop_running.
Qed.

Lemma monitor_unfold (env : environ) (ri D : Z) (fuel : nat) (last : Z) (s : state) :
  monitor env ri D (S fuel) last s =
  if running s then
    if (D >? 0) && (now s - start_time s >=? D)
    then Some (log INFO (DurationReached D) s)
    else monitor env ri D fuel (snd (tick env ri last s)) (fst (tick env ri last s))
  else Some s.
Proof.
  simpl. unfold tick. destruct (running s); [|reflexivity].
  destruct ((D >? 0) && (now s - start_time s >=? D)); [reflexivity|].
  destruct (now s - last >=? ri); reflexivity.
Qed.

Lemma tick_frame (env : environ) (ri last : Z) (s : state) :
  let s' := fst (tick env ri last s) in
  cfg s' = cfg s /\ start_time s' = start_time s /\
  now s + 20 <= now s' <= now s + 30 /\
  (settled s -> settled s') /\
  (calm env (cfg s) -> running s' = running s).
Proof.
  unfold tick.
  set (s1 := if now s - last >=? ri then print_status_report env s else s).
  assert (E : (let '(s1, last0) :=
                 if now s - last >=? ri
                 then (print_status_report env s, now s) else (s, last) in
               (block env TICK_SLEEP
                  (check_stream_health env (check_resource_limits env s1)), last0))
              = (block env TICK_SLEEP
                   (check_stream_health env (check_resource_limits env s1)),
                 if now s - last >=? ri then now s else last)).
  { subst s1. destruct (now s - last >=? ri); reflexivity. }
  rewrite E. cbn [fst]. clear E.
  assert (H1 : cfg s1 = cfg s /\ running s1 = running s /\
               start_time s1 = start_time s /\
               now s <= now s1 <= now s + 10 /\ (settled s -> settled s1)).
  { subst s1. destruct (now s - last >=? ri).
    - destruct (print_status_report_frame env s) as (P1 & P2 & P3 & P4 & P5).
      unfold CPU_INTERVAL in P4. repeat split; try assumption; try lia.
      intros [H|H]; [left; congruence|right; auto].
    - repeat split; auto; lia. }
  destruct H1 as (C1 & C2 & C3 & C4 & C5).
  destruct (check_resource_limits_frame env s1) as (R1 & R2 & R3 & R4 & R5).
  set (s2 := check_resource_limits env s1) in *.
  destruct (check_stream_health_frame env s2) as (H1 & H2 & H3 & H4 & H5).
  set (s3 := check_stream_health env s2) in *.
  destruct (block_frame env TICK_SLEEP s3) as (B1 & B2 & B3 & B4 & B5 & B6).
  unfold CPU_INTERVAL, TICK_SLEEP in *.
  split; [congruence|]. split; [congruence|]. split; [lia|]. split.
  - intro H. destruct (R4 (C5 H)) as [G|G]; [left; congruence|right; auto].
  - intro H. rewrite B2, H2, R5, C2; [reflexivity|].
    rewrite C1. apply H.
Qed.






Lemma overshoot_run :
  exists s',
    start Examples.quiet 10 (Examples.fresh (Examples.single_video 1 (Some 10)))
    = Returned s' /\
    running s' = false /\ start_time s' = 0 /\ stop_times s' = [25] /\
    test_duration (match saved s' with
                   | Some (_, r) => r
                   | None => {| test_duration := 0; total_streams := 0; streams := [] |}
                   end) = 25.
Proof. eexists. split; [vm_compute; reflexivity|]. vm_compute. repeat split. Qed.

End OrchestratorProps.

(** * Further properties of the publisher *)

Module PublisherMore.
Import Publisher PublisherProps.







Lemma step_keeps_thread (o : op) (p : publisher) :
  not_stop o -> running p = true -> thread_alive p = true ->
  running (step o p) = true /\ thread_alive (step o p) = true.
Proof.
  intros N R A. destruct o as [now|e|now| |[|h err|b]]; cbn [step bg_step not_stop] in *.
  - unfold start. rewrite R. auto.
  - contradiction.
  - auto.
  - auto.
  - assert (K : forall q, running q = true ->
                  (exists c, thread q = Some c /\ c <> Finished) ->
                  running q = true /\ thread_alive q = true).
    { intros q Rq (c & Tc & Nc). split; [exact Rq|].
      unfold thread_alive. rewrite Tc. destruct c; congruence. }
    unfold thread_alive in A. unfold thread_step, handler.
    destruct (thread p) as [[ | | | | | ]|] eqn:T; try discriminate; rewrite ?R;
      cbn [spawn_ok emit].
    + apply K; [exact R|]. exists Launch. split; [reflexivity|discriminate].
    + destruct (spawn_ok p); (apply K; [exact R|]);
        [exists Poll|exists LoopHead]; split; try reflexivity; discriminate.
    + destruct (current p) as [pr|]; [destruct (alive pr)|];
        (apply K; [exact R|]);
        [exists Poll; split; [exact T|discriminate]
        |exists IfRunning; split; [reflexivity|discriminate]
        |exists LoopHead; split; [reflexivity|discriminate]].
    + apply K; [exact R|]. exists Crashed. split; [reflexivity|discriminate].
    + destruct (current p) as [pr|]; [destruct (alive pr)|];
        (apply K; [exact R|]);
        [exists Crashed; split; [exact T|discriminate]
        |exists LoopHead; split; [reflexivity|discriminate]
        |exists LoopHead; split; [reflexivity|discriminate]].
  - unfold proc_exit. destruct (nth_error (procs p) h) as [pr|]; auto.
    destruct (alive pr); auto.
  - auto.
Qed.

(** X2. The supervision loop has no limit of its own: as long as
    nothing calls [stop], whatever the thread, the processes and the
    other callers do, [running] stays true and the thread stays alive. *)
Theorem thread_never_gives_up (ops : list op) (p : publisher) :
  Forall not_stop ops -> running p = true -> thread_alive p = true ->
  running (run ops p) = true /\ thread_alive (run ops p) = true.
Proof.
  intro F. revert p. induction F as [|o ops N F IH]; intros p R A; [auto|].
  unfold run. simpl. destruct (step_keeps_thread o p N R A) as [R1 A1].
  apply IH; assumption.
Qed.

Lemma thread_never_gives_up_witness :
  let ops := [Bg LoopStep; Bg LoopStep; Bg (ProcExit 0 "Connection refused");
              GetStats 5; Start 7; Bg LoopStep; Bg LoopStep; Bg LoopStep;
              Bg (SpawnOk false); Bg LoopStep; Bg LoopStep; IsHealthy] in
  let p := start 0 Examples.cam in
  Forall not_stop ops /\ running p = true /\ thread_alive p = true /\
  running (run ops p) = true /\ thread_alive (run ops p) = true.
Proof.
  intros ops p.
  assert (F : Forall not_stop ops) by (repeat constructor).
  split; [exact F|]. split; [reflexivity|]. split; [reflexivity|].
  exact (thread_never_gives_up ops p F eq_refl eq_refl).
Defined.

Lemma set_nth_snoc {A} (l : list A) (x y : A) :
  set_nth (List.length l) x (l ++ [y]) = (l ++ [x])%list.
Proof. induction l as [|a l IH]; simpl; [reflexivity|now rewrite IH]. Qed.

Lemma crash_cycle_fields (n : nat) (err : string) (p : publisher) :
  running p = true -> thread p = Some LoopHead -> spawn_ok p = true ->
  let q := crash_cycle (n, err) p in
  running q = true /\ thread q = Some LoopHead /\ spawn_ok q = true /\
  conf q = conf p /\
  error_count q = error_count p + 1 /\
  procs q = (procs p ++ [{| alive := false; stderr := err |}])%list /\
  process q = Some (List.length (procs p)) /\
  trace q =
  (trace p
   ++ [Log DEBUG (FfmpegCommand (build_ffmpeg_command (conf p)));
       Popen (build_ffmpeg_command (conf p))]
   ++ repeat (Sleep POLL_INTERVAL) n
   ++ [Log ERROR (EndedUnexpectedly (substring 0 EXCERPT err));
       Sleep RESTART_DELAY])%list.
Proof.
  intros R T S. unfold crash_cycle. cbn [fst snd].
  set (h := List.length (procs p)).
  set (fresh := {| alive := true; stderr := "" |}).
  set (dead := {| alive := false; stderr := err |}).
  pose proof (launch_step p R T S) as EL.
  set (launched := thread_steps 2 p) in *.
  assert (CL : current launched = Some fresh).
  { rewrite EL. unfold current.
    cbn [process procs set_thread emit set_process set_procs].
    apply nth_error_snoc. }
  assert (EP : thread_steps n launched = slept n launched).
  { apply (poll_live n launched fresh); auto; rewrite EL; simpl; auto. }
  destruct (slept_fields n launched) as (S1 & S2 & S3 & S4 & S5 & S6 & S7 & S8 & S9).
  rewrite <- EP in *. set (polled := thread_steps n launched) in *.
  assert (PS : procs polled = (procs p ++ [fresh])%list) by (rewrite S7, EL; reflexivity).
  assert (EX : proc_exit h err polled
               = set_procs (set_nth h dead (procs polled)) polled).
  { unfold proc_exit. rewrite PS. unfold h. rewrite nth_error_snoc. reflexivity. }
  assert (PD : set_nth h dead (procs polled) = (procs p ++ [dead])%list)
    by (rewrite PS; apply set_nth_snoc).
  assert (X1 : running (proc_exit h err polled) = true)
    by (rewrite EX; cbn [running set_procs]; rewrite S4, EL; exact R).
  assert (X2 : thread (proc_exit h err polled) = Some Poll)
    by (rewrite EX; cbn [thread set_procs]; rewrite S3, EL; reflexivity).
  assert (X3 : process (proc_exit h err polled) = Some h)
    by (rewrite EX; cbn [process set_procs]; rewrite S2, EL; reflexivity).
  assert (X4 : nth_error (procs (proc_exit h err polled)) h = Some dead)
    by (rewrite EX; cbn [procs set_procs]; rewrite PD; apply nth_error_snoc).
  rewrite (crash_steps (proc_exit h err polled) h dead X1 X2 X3 X4 eq_refl).
  cbn [running thread spawn_ok conf error_count procs process trace
         set_thread emit set_error_count stderr].
  rewrite EX.
  cbn [running thread spawn_ok conf error_count procs process trace set_procs].
  rewrite S1, S4, S5, S8, S2, S9, PD, EL.
  cbn [running thread spawn_ok conf error_count procs process trace
         set_thread emit set_process set_procs].
  repeat split; auto. now rewrite <- !app_assoc.
Qed.

(** X3. A publisher whose encoder ends again and again while [running]
    holds, however long each process lived and whatever it left on its
    stderr, counts one error per crash, keeps every ended process out of
    the way, and stands at the loop head again ready to launch: after
    [n] crashes the counter is up by [n], the thread is alive, and the
    publisher is unhealthy exactly when the counter has reached 10. *)
Theorem crashes_are_counted (cs : list (nat * string)) (p : publisher) :
  running p = true -> thread p = Some LoopHead -> spawn_ok p = true ->
  error_count (crash_cycles cs p) = error_count p + Z.of_nat (List.length cs) /\
  running (crash_cycles cs p) = true /\
  thread (crash_cycles cs p) = Some LoopHead /\
  thread_alive (crash_cycles cs p) = true /\
  procs (crash_cycles cs p)
  = (procs p ++ map (fun c => {| alive := false; stderr := snd c |}) cs)%list /\
  live (crash_cycles cs p) = live p /\
  is_healthy (crash_cycles cs p)
  = (error_count p + Z.of_nat (List.length cs) <? 10)%Z.
Proof.
  revert p. induction cs as [|[n err] cs IH]; intros p R T Sp.
  - cbn [crash_cycles fold_left List.length map]. rewrite app_nil_r, Z.add_0_r.
    unfold is_healthy, thread_alive, MAX_ERRORS. rewrite R, T.
    repeat split; auto.
  - destruct (crash_cycle_fields n err p R T Sp)
      as (R1 & T1 & S1 & _ & E1 & P1 & _ & _).
    specialize (IH (crash_cycle (n, err) p) R1 T1 S1).
    change (crash_cycles ((n, err) :: cs) p)
      with (crash_cycles cs (crash_cycle (n, err) p)).
    destruct IH as (A1 & A2 & A3 & A4 & A5 & A6 & A7).
    rewrite A1, A5, A6, A7, E1, P1.
    cbn [List.length map snd]. rewrite <- app_assoc. cbn [app].
    replace (error_count p + 1 + Z.of_nat (List.length cs))
      with (error_count p + Z.of_nat (S (List.length cs))) by lia.
    repeat split; auto.
    unfold live. cbn [procs]. rewrite P1, filter_app. cbn [filter alive].
    now rewrite app_nil_r.
Qed.

Lemma crashes_are_counted_witness :
  let p := start 0 Examples.cam in
  let q := crash_cycles [(2%nat, "a"); (0%nat, ""); (5%nat, "c")] p in
  running p = true /\ thread p = Some LoopHead /\ spawn_ok p = true /\
  error_count q = 3 /\ thread_alive q = true /\ is_healthy q = true.
Proof.
  intros p q. unfold q.
  destruct (crashes_are_counted [(2%nat, "a"); (0%nat, ""); (5%nat, "c")] p
              eq_refl eq_refl eq_refl) as (A1 & _ & _ & A4 & _ & _ & A7).
  repeat split; assumption.
Defined.

Lemma failed_attempt_step (p : publisher) :
  running p = true -> thread p = Some LoopHead -> spawn_ok p = false ->
  thread_steps 2 p =
  handler (emit (Log DEBUG (FfmpegCommand (build_ffmpeg_command (conf p))))
             (set_thread (Some Launch) p)).
Proof.
  intros R T Sp. unfold thread_steps. simpl.
  unfold thread_step at 2. rewrite T, R.
  unfold thread_step. cbn [thread set_thread emit spawn_ok conf procs].
  rewrite Sp. reflexivity.
Qed.

Lemma failed_attempt (p : publisher) :
  running p = true -> thread p = Some LoopHead -> spawn_ok p = false ->
  running (thread_steps 2 p) = true /\ thread (thread_steps 2 p) = Some LoopHead /\
  spawn_ok (thread_steps 2 p) = false /\
  conf (thread_steps 2 p) = conf p /\
  error_count (thread_steps 2 p) = error_count p + 1 /\
  procs (thread_steps 2 p) = procs p /\ process (thread_steps 2 p) = process p /\
  trace (thread_steps 2 p) = (trace p ++ failed_launch p)%list.
Proof.
  intros R T Sp. rewrite (failed_attempt_step p R T Sp). unfold handler.
  cbn [running thread spawn_ok conf error_count procs process trace
         set_thread emit set_error_count].
  repeat split; auto. unfold failed_launch. rewrite <- ?app_assoc. reflexivity.
Qed.

(** X4. While the host cannot spawn the encoder, every attempt of the
    supervision loop ends in the exception handler: the command is
    logged, an error is logged and counted, the thread sleeps 2 time
    units and is back at the loop head.  After [k] attempts the counter
    is up by [k] and no process was ever created. *)
Theorem launch_failures (k : nat) (p : publisher) :
  running p = true -> thread p = Some LoopHead -> spawn_ok p = false ->
  error_count (Nat.iter k (thread_steps 2) p) = error_count p + Z.of_nat k /\
  procs (Nat.iter k (thread_steps 2) p) = procs p /\
  process (Nat.iter k (thread_steps 2) p) = process p /\
  running (Nat.iter k (thread_steps 2) p) = true /\
  thread (Nat.iter k (thread_steps 2) p) = Some LoopHead /\
  trace (Nat.iter k (thread_steps 2) p)
  = (trace p ++ List.concat (repeat (failed_launch p) k))%list.
Proof.
  intros R T Sp.
  assert (H : let q := Nat.iter k (thread_steps 2) p in
              running q = true /\ thread q = Some LoopHead /\ spawn_ok q = false /\
              conf q = conf p /\ error_count q = error_count p + Z.of_nat k /\
              procs q = procs p /\ process q = process p /\
              trace q = (trace p ++ List.concat (repeat (failed_launch p) k))%list).
  { induction k as [|k IH]; cbv zeta in *.
    - cbn [Nat.iter repeat List.concat]. rewrite app_nil_r, Z.add_0_r. repeat split; auto.
    - destruct IH as (A1 & A2 & A3 & A4 & A5 & A6 & A7 & A8).
      destruct (failed_attempt _ A1 A2 A3) as (B1 & B2 & B3 & B4 & B5 & B6 & B7 & B8).
      change (Nat.iter (S k) (thread_steps 2) p)
        with (thread_steps 2 (Nat.iter k (thread_steps 2) p)).
      rewrite B5, B6, B7, B8, B4, A4, A5, A6, A7, A8.
      split; [exact B1|]. split; [exact B2|]. split; [exact B3|].
      split; [reflexivity|]. split; [lia|]. split; [reflexivity|].
      split; [reflexivity|].
      rewrite <- app_assoc. f_equal.
      change (S k) with (1 + k)%nat.
      replace (1 + k)%nat with (k + 1)%nat by lia.
      rewrite repeat_app, concat_app. cbn [repeat List.concat].
      rewrite app_nil_r. f_equal. unfold failed_launch. now rewrite A4. }
  destruct H as (A1 & A2 & _ & _ & A5 & A6 & A7 & A8). auto 10.
Qed.

Lemma launch_failures_witness :
  let p := set_spawn_ok false (start 0 Examples.cam) in
  running p = true /\ thread p = Some LoopHead /\ spawn_ok p = false /\
  error_count (Nat.iter 10 (thread_steps 2) p) = 10 /\
  procs (Nat.iter 10 (thread_steps 2) p) = [].
Proof.
  intro p.
  destruct (launch_failures 10 p eq_refl eq_refl eq_refl) as (A1 & A2 & _).
  repeat split; assumption.
Defined.

Lemma run_error_count (ops : list op) (p : publisher) :
  error_count p <= error_count (run ops p).
Proof.
  revert p. induction ops as [|o ops IH]; intro p; [simpl; lia|].
  unfold run. simpl. etransitivity; [apply (step_error_count o)|apply IH].
Qed.

(** X5. A publisher that has reached ten errors is unhealthy for good:
    whatever is done to it afterwards, restarts included, [is_healthy]
    answers false. *)
Theorem unhealthy_for_good (ops : list op) (p : publisher) :
  error_count p >= 10 -> is_healthy (run ops p) = false.
Proof.
  intro H. pose proof (run_error_count ops p) as G.
  unfold is_healthy, MAX_ERRORS.
  destruct (Z.ltb_spec (error_count (run ops p)) 10) as [L|L]; [lia|].
  now rewrite andb_false_r.
Qed.

Lemma unhealthy_for_good_witness :
  let p := crash_cycles (repeat (0%nat, "") 10) (start 0 Examples.cam) in
  error_count p >= 10 /\
  is_healthy (run [Stop Examples.prompt; Start 400; Bg LoopStep; Bg LoopStep] p)
  = false.
Proof.
  intro p.
  assert (H : error_count p >= 10) by (vm_compute; discriminate).
  split; [exact H|].
  exact (unhealthy_for_good [Stop Examples.prompt; Start 400; Bg LoopStep; Bg LoopStep]
           p H).
Defined.




End PublisherMore.

(** * Further properties of the orchestrator *)

Module OrchestratorMore.
Import Orchestrator OrchestratorProps.

(** ** [stop] and the final report *)

(** X8. The orchestrator's [stop] is idempotent, and on an orchestrator
    that is not running it does nothing at all: no publisher is touched,
    nothing is logged, no report is written. *)
Theorem stop_is_idempotent (env env' : environ) (s : state) :
  stop env' (stop env s) = stop env s /\
  (running s = false -> stop env s = s).
Proof.
  destruct (stop_frame env s) as (_ & R & _ & _ & _ & N).
  destruct (stop_frame env' (stop env s)) as (_ & _ & _ & _ & _ & N').
  split; [apply N'; exact R|exact N].
Qed.

Lemma thread_step_conf (p : Publisher.publisher) :
  Publisher.conf (Publisher.thread_step p) = Publisher.conf p /\
  Publisher.start_time (Publisher.thread_step p) = Publisher.start_time p.
Proof.
  unfold Publisher.thread_step, Publisher.handler.
  destruct (Publisher.thread p) as [[ | | | | | ]|];
    cbn [Publisher.spawn_ok Publisher.emit];
    repeat match goal with
           | |- context [match ?x with Some _ => _ | None => _ end] => destruct x
           | |- context [if ?b then _ else _] => destruct b
           end; split; reflexivity.
Qed.

Lemma thread_steps_conf (n : nat) (p : Publisher.publisher) :
  Publisher.conf (Publisher.thread_steps n p) = Publisher.conf p /\
  Publisher.start_time (Publisher.thread_steps n p) = Publisher.start_time p.
Proof.
  induction n as [|n IH]; [split; reflexivity|].
  unfold Publisher.thread_steps in *. simpl.
  destruct (thread_step_conf (Nat.iter n Publisher.thread_step p)) as [A B].
  destruct IH as [C D]. split; congruence.
Qed.

Lemma publisher_stop_conf (e : Publisher.stop_env) (p : Publisher.publisher) :
  Publisher.conf (Publisher.stop e p) = Publisher.conf p /\
  Publisher.start_time (Publisher.stop e p) = Publisher.start_time p.
Proof.
  unfold Publisher.stop. cbn [Publisher.conf Publisher.start_time Publisher.emit].
  set (p1 := Publisher.set_running false (Publisher.emit _ p)).
  destruct (thread_steps_conf (Publisher.preempt e) p1) as [A1 A2].
  set (p2 := Publisher.thread_steps (Publisher.preempt e) p1) in *.
  assert (T : Publisher.conf (Publisher.terminate e p2) = Publisher.conf p2 /\
              Publisher.start_time (Publisher.terminate e p2) = Publisher.start_time p2).
  { unfold Publisher.terminate.
    destruct (Publisher.process p2) as [h|]; [|split; reflexivity].
    destruct (nth_error (Publisher.procs p2) h) as [pr|]; [|split; reflexivity].
    destruct (Publisher.alive pr); [|split; reflexivity].
    destruct (Publisher.graceful e); split; reflexivity. }
  destruct T as [T1 T2].
  destruct (Publisher.thread_alive (Publisher.terminate e p2)).
  - unfold Publisher.join.
    destruct (thread_steps_conf 4 (Publisher.terminate e p2)) as [B1 B2].
    split; [rewrite B1, T1, A1|rewrite B2, T2, A2]; reflexivity.
  - split; [rewrite T1, A1|rewrite T2, A2]; reflexivity.
Qed.


Lemma length_mapi_from {A B} (f : nat -> A -> B) (l : list A) (k : nat) :
  List.length (mapi_from k f l) = List.length l.
Proof. revert k. induction l as [|x l IH]; intro k; simpl; auto. Qed.



(** ** When [start] returns, and when it does not *)

Lemma monitor_settled (env : environ) (ri D : Z) (fuel : nat) :
  forall (last : Z) (s x : state),
    monitor env ri D fuel last s = Some x ->
    settled s -> settled x /\ cfg x = cfg s /\ start_time x = start_time s.
Proof.
  induction fuel as [|fuel IH]; intros last s x E Hs; [discriminate|].
  rewrite monitor_unfold in E. destruct (running s) eqn:R.
  - destruct ((D >? 0) && (now s - start_time s >=? D)).
    + injection E as <-. repeat split. left. exact R.
    + destruct (tick_frame env ri last s) as (T1 & T2 & _ & T4 & _).
      destruct (IH _ _ _ E (T4 Hs)) as (A1 & A2 & A3).
      repeat split; congruence.
  - injection E as <-. repeat split; assumption.
Qed.

Lemma append_all_frame (mk : list (string * (exn + Publisher.publisher))) (s : state) :
  cfg (fst (append_all mk s)) = cfg s /\
  running (fst (append_all mk s)) = running s /\
  start_time (fst (append_all mk s)) = start_time s /\
  now (fst (append_all mk s)) = now s /\
  saved (fst (append_all mk s)) = saved s.
Proof.
  revert s. induction mk as [|[name [e|p]] mk IH]; intro s; simpl;
    [repeat split| repeat split|].
  destruct (IH (log INFO (CreatedPublisher name)
                  (set_publishers (publishers s ++ [p]) s))) as (A & B & C & D & E).
  repeat split; assumption.
Qed.

Lemma create_publishers_frame (env : environ) (s : state) :
  cfg (fst (create_publishers env s)) = cfg s /\
  running (fst (create_publishers env s)) = running s /\
  start_time (fst (create_publishers env s)) = start_time s /\
  now (fst (create_publishers env s)) = now s /\
  saved (fst (create_publishers env s)) = saved s.
Proof.
  unfold create_publishers.
  destruct (rtsp_server (cfg s)) as [server|]; [|repeat split].
  destruct (video (cfg s)) as [v|]; [|destruct (has_sources (cfg s))]; cbv zeta beta;
    try match goal with
        | |- context [append_all ?mk s] =>
            pose proof (append_all_frame mk s) as H;
            destruct (append_all mk s) as [s' [e|]]; exact H
        end.
  repeat split.
Qed.

Lemma start_from_frame (env : environ) (n i : nat) (s : state) :
  cfg (start_from env i n s) = cfg s /\
  running (start_from env i n s) = running s /\
  start_time (start_from env i n s) = start_time s.
Proof.
  revert i s. induction n as [|n IH]; intros i s; [repeat split|].
  cbn [start_from].
  match goal with |- context [start_from env (S i) n ?x] =>
    destruct (IH (S i) x) as (A & B & C) end.
  rewrite A, B, C. unfold block.
  destruct (nth_error (publishers s) i); repeat split.
Qed.

(** X10. [start] on an orchestrator that is not running returns only
    after the shutdown: whenever it returns, the orchestrator is not
    running, every publisher is stopped, and a further [stop] (the one in
    the [finally] of [main]) does nothing. *)
Theorem start_returns_stopped (env : environ) (fuel : nat) (s s' : state) :
  running s = false -> start env fuel s = Returned s' ->
  running s' = false /\ all_stopped s' /\ cfg s' = cfg s /\
  (forall env', stop env' s' = s').
Proof.
  intros R E. unfold start in E. rewrite R in E.
  set (c := match publishers s with
            | [] => create_publishers env s
            | _ :: _ => (s, None)
            end) in E.
  assert (C : cfg (fst c) = cfg s).
  { unfold c. destruct (publishers s); [|reflexivity].
    apply create_publishers_frame. }
  destruct c as [s0 [e|]]; [discriminate|]. cbn [fst] in C.
  set (s1 := log INFO Starting
               (set_start_time (now (set_running true s0)) (set_running true s0))) in E.
  destruct (start_from_frame env (List.length (publishers s1)) 0 s1) as (F1 & F2 & _).
  set (s2 := start_from env 0 (List.length (publishers s1)) s1) in *.
  set (s3 := log INFO (StartedStreams (List.length (publishers s2))) s2) in E.
  unfold monitoring_loop in E.
  destruct (monitor env (get2 (load_test (cfg s3)) report_interval 100)
              (get2 (load_test (cfg s3)) duration 0) fuel (now s3) s3)
    as [x|] eqn:M; [|discriminate].
  injection E as <-.
  destruct (monitor_settled _ _ _ _ _ _ _ M) as (A1 & A2 & _).
  { left. exact F2. }
  destruct (stop_frame env x) as (G1 & G2 & _ & _ & G5 & G6).
  split; [exact G2|]. split; [|split].
  - destruct (running x) eqn:Rx; [apply G5; reflexivity|].
    rewrite G6 by reflexivity. destruct A1 as [H|H]; [congruence|exact H].
  - rewrite G1, A2. cbn [cfg log s3]. rewrite F1. exact C.
  - intro env'. destruct (stop_frame env' (stop env x)) as (_ & _ & _ & _ & _ & N).
    apply N. exact G2.
Qed.

Lemma start_returns_stopped_witness :
  exists s',
    running (Examples.fresh (Examples.single_video 2 (Some 30))) = false /\
    start Examples.quiet 10 (Examples.fresh (Examples.single_video 2 (Some 30)))
    = Returned s' /\
    running s' = false /\ all_stopped s'.
Proof.
  destruct (start Examples.quiet 10 (Examples.fresh (Examples.single_video 2 (Some 30))))
    as [s'| |] eqn:E; try (vm_compute in E; discriminate).
  exists s'.
  destruct (start_returns_stopped Examples.quiet 10
              (Examples.fresh (Examples.single_video 2 (Some 30))) s' eq_refl E)
    as (A & B & _).
  repeat split; assumption.
Defined.

Lemma monitor_runs_on (env : environ) (ri D : Z) (fuel : nat) :
  D <= 0 ->
  forall (last : Z) (s : state),
    running s = true -> calm env (cfg s) ->
    monitor env ri D fuel last s = None.
Proof.
  intro HD. induction fuel as [|fuel IH]; intros last s R C; [reflexivity|].
  rewrite monitor_unfold, R.
  destruct (Z.gtb_spec D 0) as [G|_]; [lia|]. cbn [andb].
  destruct (tick_frame env ri last s) as (T1 & _ & _ & _ & T5).
  apply IH; [rewrite T5; assumption|now rewrite T1].
Qed.

(** X11. Without a duration limit (a configured duration of zero or
    less, or none) and with memory staying at or below its ceiling, the
    monitoring loop of a running orchestrator does not end by itself,
    however long it is run: only a signal ends such a run. *)
Theorem no_limit_runs_on (env : environ) (s : state) (fuel : nat) :
  running s = true -> get2 (load_test (cfg s)) duration 0 <= 0 ->
  calm env (cfg s) ->
  monitoring_loop env fuel s = None.
Proof.
  intros R D C. unfold monitoring_loop.
  now rewrite (monitor_runs_on env _ _ fuel D (now s) s R C).
Qed.

Lemma no_limit_runs_on_witness :
  let s := set_running true (Examples.fresh (Examples.single_video 1 None)) in
  running s = true /\ get2 (load_test (cfg s)) duration 0 <= 0 /\
  calm Examples.quiet (cfg s) /\
  monitoring_loop Examples.quiet 1000 s = None.
Proof.
  intro s.
  assert (C : calm Examples.quiet (cfg s)) by (intro t; vm_compute; discriminate).
  assert (D : get2 (load_test (cfg s)) duration 0 <= 0) by (vm_compute; discriminate).
  split; [reflexivity|]. split; [exact D|]. split; [exact C|].
  exact (no_limit_runs_on Examples.quiet s 1000 eq_refl D C).
Defined.

(** ** The order and the times at which publishers are started *)

Lemma nth_error_mapi_from {A B} (f : nat -> A -> B) (l : list A) (k j : nat) :
  nth_error (mapi_from k f l) j = option_map (f (k + j)%nat) (nth_error l j).
Proof.
  revert k j. induction l as [|x l IH]; intros k [|j]; simpl; try reflexivity.
  - now rewrite Nat.add_0_r.
  - rewrite IH. now replace (S k + j)%nat with (k + S j)%nat by lia.
Qed.

Lemma nth_error_set_nth_other {A} (l : list A) (i j : nat) (x : A) :
  i <> j -> nth_error (set_nth i x l) j = nth_error l j.
Proof.
  revert i j. induction l as [|a l IH]; intros [|i] [|j] H; simpl; auto; try lia.
Qed.

Lemma length_set_nth {A} (l : list A) (i : nat) (x : A) :
  List.length (set_nth i x l) = List.length l.
Proof. revert i. induction l as [|a l IH]; intros [|i]; simpl; auto. Qed.

Lemma bg_run_start_time (bs : list Publisher.background) (p : Publisher.publisher) :
  Publisher.start_time (bg_run bs p) = Publisher.start_time p.
Proof.
  unfold bg_run. revert p. induction bs as [|b bs IH]; intro p; simpl; [reflexivity|].
  rewrite IH. destruct b as [|h err|b]; simpl.
  - apply thread_step_conf.
  - unfold Publisher.proc_exit. destruct (nth_error (Publisher.procs p) h) as [pr|]; auto.
    destruct (Publisher.alive pr); reflexivity.
  - reflexivity.
Qed.

Lemma start_from_started (env : environ) (t0 : Z) (n : nat) :
  forall (i : nat) (s : state),
    now s = t0 + START_DELAY * Z.of_nat i ->
    List.length (publishers s) = (i + n)%nat ->
    (forall k p, (k < i)%nat -> nth_error (publishers s) k = Some p ->
       Publisher.running p = true /\
       Publisher.start_time p = Some (t0 + START_DELAY * Z.of_nat k)) ->
    (forall k p, (i <= k)%nat -> nth_error (publishers s) k = Some p ->
       Publisher.running p = false) ->
    now (start_from env i n s) = t0 + START_DELAY * Z.of_nat (i + n) /\
    List.length (publishers (start_from env i n s)) = (i + n)%nat /\
    (forall k p, nth_error (publishers (start_from env i n s)) k = Some p ->
       Publisher.running p = true /\
       Publisher.start_time p = Some (t0 + START_DELAY * Z.of_nat k)).
Proof.
  induction n as [|n IH]; intros i s Hn Hl Hlow Hhigh.
  - cbn [start_from]. rewrite Nat.add_0_r in *.
    split; [exact Hn|]. split; [exact Hl|].
    intros k p E. apply (Hlow k p); [|exact E].
    rewrite <- Hl. apply nth_error_Some. congruence.
  - cbn [start_from].
    destruct (nth_error (publishers s) i) as [pi|] eqn:Ei;
      [|apply nth_error_None in Ei; lia].
    set (s1 := set_publishers
                 (set_nth i (Publisher.start (now s) pi) (publishers s)) s).
    replace (i + S n)%nat with (S i + n)%nat by lia.
    apply IH.
    + unfold block. cbn [now set_now]. unfold s1. cbn [now set_publishers].
      rewrite Hn. lia.
    + unfold block. cbn [publishers set_now set_publishers]. unfold mapi.
      rewrite length_mapi_from. unfold s1. cbn [publishers set_publishers].
      rewrite length_set_nth. lia.
    + intros k p Hk E. unfold block in E. cbn [publishers set_now set_publishers] in E.
      unfold mapi in E. rewrite nth_error_mapi_from in E. cbn [Nat.add] in E.
      unfold s1 in E. cbn [publishers set_publishers now] in E.
      destruct (Nat.eq_dec k i) as [->|Ne].
      * rewrite PublisherProps.nth_error_set_nth in E
          by (apply nth_error_Some; congruence).
        cbn [option_map] in E. injection E as <-.
        rewrite bg_run_running, bg_run_start_time.
        assert (Ri : Publisher.running pi = false) by (apply (Hhigh i); auto).
        unfold Publisher.start. rewrite Ri.
        cbn [Publisher.running Publisher.start_time Publisher.emit Publisher.set_thread
               Publisher.set_start_time Publisher.set_running].
        split; [reflexivity|]. now rewrite Hn.
      * rewrite nth_error_set_nth_other in E by auto.
        destruct (nth_error (publishers s) k) as [pk|] eqn:Ek; [|discriminate].
        cbn [option_map] in E. injection E as <-.
        rewrite bg_run_running, bg_run_start_time.
        apply (Hlow k); [lia|exact Ek].
    + intros k p Hk E. unfold block in E. cbn [publishers set_now set_publishers] in E.
      unfold mapi in E. rewrite nth_error_mapi_from in E. cbn [Nat.add] in E.
      unfold s1 in E. cbn [publishers set_publishers now] in E.
      rewrite nth_error_set_nth_other in E by lia.
      destruct (nth_error (publishers s) k) as [pk|] eqn:Ek; [|discriminate].
      cbn [option_map] in E. injection E as <-.
      rewrite bg_run_running. apply (Hhigh k); [lia|exact Ek].
Qed.

(** X12. The loop of [start] that starts the publishers: when none of
    them is running yet, it starts them in creation order, the k-th
    (from 0) at 0.5 time units times k after the loop began, and leaves
    them all running; with n publishers it takes 0.5 n time units, so the
    monitoring loop is entered that much after the start time. *)
Theorem start_order (env : environ) (s : state) :
  Forall (fun p => Publisher.running p = false) (publishers s) ->
  let n := List.length (publishers s) in
  let s' := start_from env 0 n s in
  now s' = now s + 5 * Z.of_nat n /\
  List.length (publishers s') = n /\
  (forall k p, nth_error (publishers s') k = Some p ->
     Publisher.running p = true /\
     Publisher.start_time p = Some (now s + 5 * Z.of_nat k)).
Proof.
  intros F n s'.
  destruct (start_from_started env (now s) n 0 s) as (A & B & C).
  - unfold START_DELAY. lia.
  - reflexivity.
  - intros k p Hk. lia.
  - intros k p _ E. rewrite Forall_forall in F. apply F.
    eapply nth_error_In; eauto.
  - unfold START_DELAY in *. cbn [Nat.add] in *. auto.
Qed.

Lemma start_order_witness :
  let s := set_publishers [Examples.cam; Examples.cam; Examples.cam]
             (Examples.fresh (Examples.single_video 3 None)) in
  Forall (fun p => Publisher.running p = false) (publishers s) /\
  now (start_from Examples.quiet 0 3 s) = 15 /\
  map Publisher.start_time (publishers (start_from Examples.quiet 0 3 s))
  = [Some 0; Some 5; Some 10].
Proof.
  intro s.
  assert (F : Forall (fun p => Publisher.running p = false) (publishers s))
    by (repeat constructor).
  destruct (start_order Examples.quiet s F) as (A & _ & _).
  split; [exact F|]. split; [exact A|reflexivity].
Defined.

(** ** What the monitoring loop never does *)

Lemma no_revival_refl (l : list Publisher.publisher) : no_revival l l.
Proof. induction l; constructor; auto. Qed.

Lemma no_revival_trans (a b c : list Publisher.publisher) :
  no_revival a b -> no_revival b c -> no_revival a c.
Proof.
  intro H. revert c. induction H as [|x y a b Hxy Hab IH]; intros c G;
    inversion G as [|y' z b' c' Hyz Hbc]; subst; constructor.
  - intro Hx. apply Hyz, Hxy, Hx.
  - apply IH. exact Hbc.
Qed.

Lemma no_revival_mapi (f : nat -> Publisher.publisher -> Publisher.publisher)
    (l : list Publisher.publisher) :
  (forall i p, Publisher.running p = false -> Publisher.running (f i p) = false) ->
  no_revival l (mapi f l).
Proof. intro H. unfold no_revival, mapi. apply Forall2_mapi_from. exact H. Qed.

Lemma block_no_revival (env : environ) (d : Z) (s : state) :
  no_revival (publishers s) (publishers (block env d s)).
Proof.
  unfold block. cbn [publishers set_now set_publishers].
  apply no_revival_mapi. intros i p H. now rewrite bg_run_running.
Qed.

Lemma stop_no_revival (env : environ) (s : state) :
  no_revival (publishers s) (publishers (stop env s)).
Proof.
  unfold stop. destruct (running s); cbn [negb]; [|apply no_revival_refl].
  unfold generate_final_report. cbv zeta.
  match goal with |- context [if ?b then _ else _] => destruct b end;
    cbn [publishers log set_saved set_publishers set_running];
    apply no_revival_mapi; intros i p _; apply PublisherProps.stop_running.
Qed.

Lemma check_resource_limits_no_revival (env : environ) (s : state) :
  no_revival (publishers s) (publishers (check_resource_limits env s)).
Proof.
  unfold check_resource_limits.
  set (s1 := if Qgtb _ _ then stop env _ else s).
  assert (H : no_revival (publishers s) (publishers s1)).
  { unfold s1. destruct (Qgtb _ _); [|apply no_revival_refl].
    apply (stop_no_revival env (log ERROR _ s)). }
  apply (no_revival_trans _ _ _ H).
  match goal with |- context [if ?b then _ else _] => destruct b end;
    cbn [publishers log]; apply block_no_revival.
Qed.

Lemma check_stream_health_no_revival (env : environ) (s : state) :
  no_revival (publishers s) (publishers (check_stream_health env s)).
Proof.
  unfold check_stream_health.
  destruct (filter (fun p => negb (Publisher.is_healthy p)) (publishers s))
    as [|u us]; [apply no_revival_refl|].
  cbn [publishers set_publishers].
  assert (P : forall l x, publishers (fold_left
                (fun s p => log ERROR (TooManyErrors
                   (Publisher.stream_name (Publisher.conf p))) s) l x) = publishers x)
    by (induction l as [|a l IH]; intro x; simpl; [reflexivity|now rewrite IH]).
  rewrite P. cbn [publishers log].
  apply no_revival_mapi. intros i p H.
  destruct (quarantined p); [apply PublisherProps.stop_running|exact H].
Qed.

Lemma tick_no_revival (env : environ) (ri last : Z) (s : state) :
  no_revival (publishers s) (publishers (fst (tick env ri last s))).
Proof.
  unfold tick.
  set (s1 := if now s - last >=? ri then print_status_report env s else s).
  assert (E : fst (let '(s1, last0) :=
                     if now s - last >=? ri
                     then (print_status_report env s, now s) else (s, last) in
                   (block env TICK_SLEEP
                      (check_stream_health env (check_resource_limits env s1)), last0))
              = block env TICK_SLEEP
                  (check_stream_health env (check_resource_limits env s1))).
  { subst s1. destruct (now s - last >=? ri); reflexivity. }
  rewrite E. clear E.
  assert (H1 : no_revival (publishers s) (publishers s1)).
  { subst s1. destruct (now s - last >=? ri); [|apply no_revival_refl].
    unfold print_status_report. cbn [publishers log]. apply block_no_revival. }
  eapply no_revival_trans; [exact H1|].
  eapply no_revival_trans; [apply check_resource_limits_no_revival|].
  eapply no_revival_trans; [apply check_stream_health_no_revival|].
  apply block_no_revival.
Qed.

Lemma monitor_no_revival (env : environ) (ri D : Z) (fuel : nat) :
  forall (last : Z) (s x : state),
    monitor env ri D fuel last s = Some x ->
    no_revival (publishers s) (publishers x).
Proof.
  induction fuel as [|fuel IH]; intros last s x E; [discriminate|].
  rewrite monitor_unfold in E. destruct (running s).
  - destruct ((D >? 0) && (now s - start_time s >=? D)).
    + injection E as <-. apply no_revival_refl.
    + eapply no_revival_trans; [apply (tick_no_revival env ri last s)|].
      eapply IH. exact E.
  - injection E as <-. apply no_revival_refl.
Qed.

(** X13. The monitoring loop never starts a publisher: a publisher
    whose [running] flag is false when the loop is entered, or becomes
    false in it (quarantine, memory shutdown), still has it false when
    the loop and the shutdown after it are over; the list keeps its
    length and order. *)
Theorem monitoring_never_revives (env : environ) (fuel : nat) (s s' : state) :
  monitoring_loop env fuel s = Some s' ->
  no_revival (publishers s) (publishers s') /\
  List.length (publishers s') = List.length (publishers s).
Proof.
  intro E. unfold monitoring_loop in E.
  destruct (monitor env _ _ fuel (now s) s) as [x|] eqn:M; [|discriminate].
  injection E as <-.
  assert (N : no_revival (publishers s) (publishers (stop env x))).
  { eapply no_revival_trans; [apply (monitor_no_revival _ _ _ _ _ _ _ M)|].
    apply stop_no_revival. }
  split; [exact N|]. symmetry. apply (Forall2_length N).
Qed.

Lemma monitoring_never_revives_witness :
  let s := set_publishers
             [Publisher.start 0 Examples.cam; Examples.cam; Publisher.start 0 Examples.cam]
             (set_running true (Examples.fresh (Examples.single_video 3 (Some 10)))) in
  exists s',
    monitoring_loop Examples.quiet 11 s = Some s' /\
    no_revival (publishers s) (publishers s') /\
    List.length (publishers s') = 3%nat.
Proof.
  intro s.
  destruct (monitoring_loop Examples.quiet 11 s) as [s'|] eqn:E;
    [|vm_compute in E; discriminate].
  exists s'. split; [reflexivity|].
  exact (monitoring_never_revives Examples.quiet 11 s s' E).
Defined.

(** ** [create_publishers] beyond the three-stream case *)





(** The sources loop: the sources up to the first one whose video does
    not open become publishers. *)
Lemma sources_prefix (env : environ) (base co pr bi pf : string)
    (good tail : list source) (s : state) :
  (forall src, In src good ->
     exists w h n, probe env (src_video_path src) = Video w h n) ->
  let G := fun src : source =>
             (src_name src,
              Publisher.init (probe env) (src_name src) (src_video_path src)
                (base ++ "/" ++ src_name src)
                (get (src_loop src) true) (get (src_fps src) 30) co pr bi pf) in
  exists s1,
    append_all (map G (good ++ tail)) s = append_all (map G tail) s1 /\
    names s1 = (names s ++ map src_name good)%list /\
    get_stream_urls s1
    = (get_stream_urls s ++ map (fun src => (base ++ "/" ++ src_name src)%string) good)%list /\
    map (fun p => (Publisher.loop (Publisher.conf p), Publisher.fps (Publisher.conf p)))
        (publishers s1)
    = (map (fun p => (Publisher.loop (Publisher.conf p), Publisher.fps (Publisher.conf p)))
           (publishers s)
       ++ map (fun src => (get (src_loop src) true, get (src_fps src) 30)) good)%list.
Proof.
  intros H G. revert s. induction good as [|src good IH]; intro s.
  - exists s. unfold names, get_stream_urls. cbn [app map].
    rewrite !app_nil_r. repeat split.
  - destruct (H src (or_introl eq_refl)) as (w & h & n & Hp).
    assert (H' : forall x, In x good ->
                   exists w h n, probe env (src_video_path x) = Video w h n)
      by (intros x Hx; apply H; right; exact Hx).
    cbn [app map]. unfold G at 1. unfold Publisher.init at 1. rewrite Hp.
    cbn [append_all].
    match goal with |- context [append_all _ ?x] =>
      destruct (IH H' x) as (s1 & E & N & U & L) end.
    exists s1. split; [exact E|].
    rewrite N, U, L. unfold names, get_stream_urls.
    cbn [publishers log set_publishers].
    rewrite !map_app. cbn [map Publisher.conf Publisher.stream_name Publisher.rtsp_url
                             Publisher.loop Publisher.fps].
    rewrite <- !app_assoc. repeat split.
Qed.

Lemma sources_all_created (env : environ) (s : state) (server : server_config)
    (sources : list source) :
  video (cfg s) = None -> video_sources (cfg s) = Some sources -> sources <> [] ->
  rtsp_server (cfg s) = Some server ->
  (forall src, In src sources ->
     exists w h n, probe env (src_video_path src) = Video w h n) ->
  exists s',
    create_publishers env s = (s', None) /\
    names s' = (names s ++ map src_name sources)%list /\
    get_stream_urls s'
    = (get_stream_urls s
       ++ map (fun src => (base_url server ++ "/" ++ src_name src)%string) sources)%list /\
    map (fun p => (Publisher.loop (Publisher.conf p), Publisher.fps (Publisher.conf p)))
        (publishers s')
    = (map (fun p => (Publisher.loop (Publisher.conf p), Publisher.fps (Publisher.conf p)))
           (publishers s)
       ++ map (fun src => (get (src_loop src) true, get (src_fps src) 30)) sources)%list.
Proof.
  intros Hv Hs Hne Hr Hp. unfold create_publishers. rewrite Hr, Hv.
  unfold has_sources. rewrite Hs. destruct sources as [|s0 rest]; [congruence|].
  cbn [get].
  destruct (sources_prefix env (base_url server)
              (get2 (publisher (cfg s)) c_codec "libx264")
              (get2 (publisher (cfg s)) c_preset "ultrafast")
              (get2 (publisher (cfg s)) c_bitrate "2M")
              (get2 (publisher (cfg s)) c_pixel_format "yuv420p")
              (s0 :: rest) [] s Hp) as (s1 & E & N & U & L).
  rewrite app_nil_r in E. rewrite E. cbn [map append_all].
  eexists. split; [reflexivity|]. unfold names, get_stream_urls in *.
  cbn [publishers log]. auto.
Qed.


(** X14. The [video_sources] format: when there is no [video] section
    and every listed video opens, [create_publishers] makes one publisher
    per source, in the order of the list, named as the source says,
    publishing to base/name, looping unless the source says otherwise and
    at the source's frame rate or 30. *)
Theorem create_from_sources (env : environ) (s : state) (server : server_config)
    (sources : list source) :
  video (cfg s) = None -> video_sources (cfg s) = Some sources -> sources <> [] ->
  rtsp_server (cfg s) = Some server ->
  (forall src, In src sources ->
     exists w h n, probe env (src_video_path src) = Video w h n) ->
  exists s',
    create_publishers env s = (s', None) /\
    names s' = (names s ++ map src_name sources)%list /\
    get_stream_urls s'
    = (get_stream_urls s
       ++ map (fun src => (base_url server ++ "/" ++ src_name src)%string) sources)%list /\
    map (fun p => (Publisher.loop (Publisher.conf p), Publisher.fps (Publisher.conf p)))
        (publishers s')
    = (map (fun p => (Publisher.loop (Publisher.conf p), Publisher.fps (Publisher.conf p)))
           (publishers s)
       ++ map (fun src => (get (src_loop src) true, get (src_fps src) 30)) sources)%list.
Proof. apply sources_all_created. Qed.

Lemma create_from_sources_witness :
  exists s',
    create_publishers Examples.quiet (Examples.fresh Examples.three_sources) = (s', None) /\
    names s' = ["lobby"; "gate"; "yard"] /\
    map (fun p => (Publisher.loop (Publisher.conf p), Publisher.fps (Publisher.conf p)))
        (publishers s')
    = [(true, 30); (false, 25); (true, 30)].
Proof.
  destruct (create_from_sources Examples.quiet (Examples.fresh Examples.three_sources)
              _ _ eq_refl eq_refl ltac:(discriminate) eq_refl)
    as (s' & E & N & _ & L).
  - intros src _. exists 640, 480, 300. reflexivity.
  - exists s'. repeat split; assumption.
Defined.

(** X15. The [video_sources] format when a video is missing: the loop
    stops at the first source whose file does not exist and the
    [FileNotFoundError] leaves [create_publishers]; the publishers made
    for the sources before it stay in the list, none is made for the
    sources after it. *)
Theorem create_stops_at_missing_source (env : environ) (s : state)
    (server : server_config) (good rest : list source) (bad : source) :
  video (cfg s) = None -> video_sources (cfg s) = Some (good ++ bad :: rest)%list ->
  rtsp_server (cfg s) = Some server ->
  (forall src, In src good ->
     exists w h n, probe env (src_video_path src) = Video w h n) ->
  probe env (src_video_path bad) = NoFile ->
  exists s',
    create_publishers env s
    = (s', Some (FileNotFoundError ("Video file not found: " ++ src_video_path bad))) /\
    names s' = (names s ++ map src_name good)%list.
Proof.
  intros Hv Hs Hr Hp Hb. unfold create_publishers. rewrite Hr, Hv.
  unfold has_sources. rewrite Hs.
  assert (Ne : exists x l, (good ++ bad :: rest)%list = x :: l)
    by (destruct good; simpl; eauto).
  destruct Ne as (x & l & Ne). rewrite Ne. rewrite <- Ne. cbn [get].
  destruct (sources_prefix env (base_url server)
              (get2 (publisher (cfg s)) c_codec "libx264")
              (get2 (publisher (cfg s)) c_preset "ultrafast")
              (get2 (publisher (cfg s)) c_bitrate "2M")
              (get2 (publisher (cfg s)) c_pixel_format "yuv420p")
              good (bad :: rest) s Hp) as (s1 & E & N & _ & _).
  rewrite E. cbn [map append_all]. unfold Publisher.init at 1. rewrite Hb.
  cbn [append_all]. exists s1. split; [reflexivity|exact N].
Qed.

Lemma create_stops_at_missing_source_witness :
  exists s',
    create_publishers Examples.gate_missing (Examples.fresh Examples.three_sources)
    = (s', Some (FileNotFoundError "Video file not found: videos/gate.mp4")) /\
    names s' = ["lobby"].
Proof.
  destruct (create_stops_at_missing_source Examples.gate_missing
              (Examples.fresh Examples.three_sources)
              {| base_url := "rtsp://localhost:8554" |}
              [ {| src_name := "lobby"; src_video_path := "videos/lobby.mp4";
                   src_loop := None; src_fps := None |} ]
              [ {| src_name := "yard"; src_video_path := "videos/yard.mp4";
                   src_loop := None; src_fps := None |} ]
              {| src_name := "gate"; src_video_path := "videos/gate.mp4";
                 src_loop := Some false; src_fps := Some 25 |}
              eq_refl eq_refl eq_refl)
    as (s' & E & N).
  - intros src [<-|[]]. exists 640, 480, 300. reflexivity.
  - reflexivity.
  - exists s'. split; assumption.
Defined.

(** X16. The limit [max_streams] does not bound the [video_sources]
    format: the constructor compares it with [concurrent_streams] (1 when
    absent) only, so a configuration passes and [create_publishers] makes
    one publisher per source however many sources there are. *)
Theorem sources_not_bounded (env : environ) (c : config) (t : Z)
    (server : server_config) (sources : list source) :
  video c = None -> video_sources c = Some sources -> sources <> [] ->
  rtsp_server c = Some server ->
  (forall src, In src sources ->
     exists w h n, probe env (src_video_path src) = Video w h n) ->
  get2 (load_test c) concurrent_streams 1 <= get2 (limits c) max_streams 50 ->
  exists s s',
    init c t = inr s /\ create_publishers env s = (s', None) /\
    List.length (publishers s') = List.length sources.
Proof.
  intros Hv Hs Hne Hr Hp Hc.
  destruct (init c t) as [e|s] eqn:Ei.
  - assert (R : exists e, validate_config c = Some e)
      by (apply (init_inl c t); eauto).
    apply validate_config_raises in R.
    destruct R as [[_ [R|R]]|[R|R]]; try congruence; try lia.
  - destruct (init_inr c t s Ei) as (I1 & I2 & _).
    destruct (sources_all_created env s server sources) as (s' & E & N & _);
      try (rewrite I1; assumption); try assumption.
    exists s, s'. split; [reflexivity|]. split; [exact E|].
    rewrite <- (length_map (fun p => Publisher.stream_name (Publisher.conf p))).
    fold (names s'). rewrite N. unfold names. rewrite I2. cbn [map app].
    apply length_map.
Qed.

Lemma sources_not_bounded_witness :
  get2 (limits Examples.three_sources) max_streams 50 = 2 /\
  exists s s',
    init Examples.three_sources 0 = inr s /\
    create_publishers Examples.quiet s = (s', None) /\
    List.length (publishers s') = 3%nat.
Proof.
  split; [reflexivity|].
  destruct (sources_not_bounded Examples.quiet Examples.three_sources 0
              _ _ eq_refl eq_refl ltac:(discriminate) eq_refl)
    as (s & s' & A & B & C).
  - intros src _. exists 640, 480, 300. reflexivity.
  - vm_compute. discriminate.
  - exists s, s'. repeat split; assumption.
Defined.

(** X17. A stream count of zero or less in the single-video format
    passes for an empty fleet: [create_publishers] returns normally
    without adding a publisher and without looking at the video file, on
    any host. *)
Theorem no_streams (env : environ) (s : state) (v : video_config)
    (server : server_config) :
  video (cfg s) = Some v -> rtsp_server (cfg s) = Some server ->
  get2 (load_test (cfg s)) concurrent_streams 3 <= 0 ->
  create_publishers env s
  = (log INFO (CreatedPublishers (List.length (publishers s))) s, None).
Proof.
  intros Hv Hr Hn. unfold create_publishers. rewrite Hr, Hv. unfold range1.
  replace (Z.to_nat (get2 (load_test (cfg s)) concurrent_streams 3)) with 0%nat by lia.
  reflexivity.
Qed.

Lemma no_streams_witness :
  let s := Examples.fresh (Examples.single_video 0 None) in
  get2 (load_test (cfg s)) concurrent_streams 3 <= 0 /\
  init (Examples.single_video 0 None) 0 = inr s /\
  create_publishers Examples.no_videos s
  = (log INFO (CreatedPublishers 0) s, None).
Proof.
  intro s.
  assert (H : get2 (load_test (cfg s)) concurrent_streams 3 <= 0)
    by (vm_compute; discriminate).
  split; [exact H|]. split; [reflexivity|].
  exact (no_streams Examples.no_videos s _ _ eq_refl eq_refl H).
Defined.

(** X18. [start] without the video file.  In the single-video format
    with at least one stream and a missing file, the lazy creation of
    publishers inside [start] raises [FileNotFoundError] before anything
    is started: the orchestrator is left not running and without
    publishers, nothing is saved, and the [stop] that follows does
    nothing, so no report is written for such a run. *)
Theorem start_without_video (env : environ) (fuel : nat) (s : state)
    (v : video_config) (server : server_config) :
  running s = false -> publishers s = [] ->
  video (cfg s) = Some v -> rtsp_server (cfg s) = Some server ->
  probe env (v_path v) = NoFile ->
  0 < get2 (load_test (cfg s)) concurrent_streams 3 ->
  start env fuel s
  = Raised (FileNotFoundError ("Video file not found: " ++ v_path v)) s /\
  (forall env', stop env' s = s).
Proof.
  intros R P Hv Hr Hp Hn.
  assert (C : create_publishers env s
              = (s, Some (FileNotFoundError ("Video file not found: " ++ v_path v)))).
  { unfold create_publishers. rewrite Hr, Hv. unfold range1.
    destruct (Z.to_nat (get2 (load_test (cfg s)) concurrent_streams 3))
      as [|m] eqn:En; [lia|].
    cbn [seq map append_all]. unfold Publisher.init at 1. rewrite Hp. reflexivity. }
  split.
  - unfold start. rewrite R, P, C. reflexivity.
  - intro env'. unfold stop. now rewrite R.
Qed.

Lemma start_without_video_witness :
  let s := Examples.fresh (Examples.single_video 3 None) in
  start Examples.no_videos 10 s
  = Raised (FileNotFoundError "Video file not found: videos/test.mp4") s /\
  stop Examples.quiet s = s.
Proof.
  intro s.
  destruct (start_without_video Examples.no_videos 10 s _ _
              eq_refl eq_refl eq_refl eq_refl eq_refl eq_refl) as [A B].
  split; [exact A|apply B].
Defined.



End OrchestratorMore.

(** * Properties of [main.py] *)

Module MainProps.
Import Orchestrator OrchestratorProps OrchestratorMore.



(** X21. What the pre-check reports.  In the [video_sources] format
    [check_video_exists] exits with code 1 exactly when some listed
    video does not exist, and what it reports as missing is then exactly
    the listed paths that do not exist, in the order of the list. *)
Theorem precheck_sources (probe : string -> probed) (c : config)
    (sources : list source) :
  video c = None -> video_sources c = Some sources ->
  (Main.check_video_exists probe c = Main.Passed <->
   Forall (fun src => probe (src_video_path src) <> NoFile) sources) /\
  (forall code missing,
     Main.check_video_exists probe c = Main.Exit code missing ->
     code = 1 /\
     forall path, In path missing <->
                  (probe path = NoFile /\ In path (map src_video_path sources))).
Proof.
  intros Hv Hs. unfold Main.check_video_exists, has_sources. rewrite Hv, Hs.
  assert (X : forall path, negb (Main.exists_ probe path) = true <-> probe path = NoFile).
  { intro path. unfold Main.exists_. destruct (probe path); simpl; split;
      congruence. }
  destruct sources as [|s0 rest].
  - split; [split; auto|]. intros code missing H. discriminate.
  - cbn [get].
    destruct (filter (fun path => negb (Main.exists_ probe path))
                (map src_video_path (s0 :: rest))) as [|m ms] eqn:F.
    + split; [|intros code missing H; discriminate].
      split; [intros _|reflexivity].
      apply filter_nil_all in F. rewrite Forall_forall in *.
      intros src Hin Hn.
      specialize (F _ (in_map src_video_path _ _ Hin)).
      apply X in Hn. congruence.
    + split.
      * split; [discriminate|]. intro A. exfalso.
        assert (Hm : In m (filter (fun path => negb (Main.exists_ probe path))
                             (map src_video_path (s0 :: rest))))
          by (rewrite F; left; reflexivity).
        apply filter_In in Hm. destruct Hm as [Hm1 Hm2].
        apply in_map_iff in Hm1. destruct Hm1 as (src & <- & Hin).
        rewrite Forall_forall in A. apply (A src Hin). apply X. exact Hm2.
      * intros code missing H. injection H as <- <-. split; [reflexivity|].
        intro path. rewrite <- F, filter_In, X. tauto.
Qed.

Lemma precheck_sources_witness :
  Main.check_video_exists (probe Examples.gate_missing) Examples.three_sources
  = Main.Exit 1 ["videos/gate.mp4"] /\
  (In "videos/gate.mp4" ["videos/gate.mp4"] <->
   probe Examples.gate_missing "videos/gate.mp4" = NoFile /\
   In "videos/gate.mp4" ["videos/lobby.mp4"; "videos/gate.mp4"; "videos/yard.mp4"]).
Proof.
  split; [reflexivity|].
  exact (proj2 (proj2 (precheck_sources (probe Examples.gate_missing)
                         Examples.three_sources _ eq_refl eq_refl)
                  1 ["videos/gate.mp4"] eq_refl) "videos/gate.mp4").
Defined.

End MainProps.

(** * Stream names *)

Module Naming.
Import Orchestrator OrchestratorProps.

Lemma to_int_proper (n : Z) : Z.to_int n <> Decimal.Pos Decimal.Nil /\
                              Z.to_int n <> Decimal.Neg Decimal.Nil.
Proof.
  split; intro H; pose proof (DecimalZ.of_to n) as E; rewrite H in E;
    cbn in E; subst n; discriminate.
Qed.

(** [int(str(n)) == n]. *)
Lemma str_parses (n : Z) :
  option_map Z.of_int (NilZero.int_of_string (str n)) = Some n.
Proof.
  unfold str. destruct (to_int_proper n) as [A B].
  rewrite (NilZero.isi _ A B). cbn [option_map]. now rewrite DecimalZ.of_to.
Qed.

Lemma str_injective (a b : Z) : str a = str b -> a = b.
Proof.
  intro H. pose proof (str_parses a) as A. pose proof (str_parses b) as B.
  rewrite H in A. congruence.
Qed.

Lemma append_injective (prefix a b : string) :
  (prefix ++ a)%string = (prefix ++ b)%string -> a = b.
Proof.
  induction prefix as [|c prefix IH]; simpl; intro H; [exact H|].
  injection H as H. auto.
Qed.

(** X22. In the single-video format the publishers that
    [create_publishers] adds to an empty list have pairwise different
    names and pairwise different endpoints, whatever the stream count. *)
Theorem distinct_streams (env : environ) (s : state) (v : video_config)
    (server : server_config) (w h n : Z) :
  video (cfg s) = Some v -> rtsp_server (cfg s) = Some server ->
  probe env (v_path v) = Video w h n -> publishers s = [] ->
  exists s',
    create_publishers env s = (s', None) /\
    List.length (publishers s')
    = Z.to_nat (get2 (load_test (cfg s)) concurrent_streams 3) /\
    NoDup (names s') /\ NoDup (get_stream_urls s').
Proof.
  intros Hv Hr Hp He.
  destruct (create_from_video env s v server w h n Hv Hr Hp) as (s' & E & N & U & _).
  unfold names at 2 in N. unfold get_stream_urls at 2 in U.
  rewrite He in N, U. cbn [map app] in N, U.
  exists s'. split; [exact E|].
  assert (D : NoDup (range1 (get2 (load_test (cfg s)) concurrent_streams 3))).
  { unfold range1. apply Finite.Injective_map_NoDup; [|apply seq_NoDup].
    intros a b. apply Nat2Z.inj. }
  split; [|split].
  - rewrite <- (length_map (fun p => Publisher.stream_name (Publisher.conf p))).
    fold (names s'). rewrite N, length_map. unfold range1.
    now rewrite length_map, length_seq.
  - rewrite N. apply Finite.Injective_map_NoDup; [|exact D].
    intros a b H. apply append_injective in H. now apply str_injective.
  - rewrite U. apply Finite.Injective_map_NoDup; [|exact D].
    intros a b H. apply append_injective in H. apply append_injective in H.
    apply append_injective in H. now apply str_injective.
Qed.

Lemma distinct_streams_witness :
  exists s',
    create_publishers Examples.quiet (Examples.fresh (Examples.single_video 12 None))
    = (s', None) /\
    List.length (publishers s') = 12%nat /\
    NoDup (names s') /\ NoDup (get_stream_urls s').
Proof.
  exact (distinct_streams Examples.quiet (Examples.fresh (Examples.single_video 12 None))
           _ _ 640 480 300 eq_refl eq_refl eq_refl eq_refl).
Defined.

End Naming.

(** * The memory ceiling and the monitoring loop *)

Module MonitoringMore.
Import Orchestrator OrchestratorProps.










End MonitoringMore.

(** * What a publisher launches, and what a failed start leaves *)

Module Lifecycle.
Import Publisher.

Lemma launches_refl (p : publisher) : launches 0 p p.
Proof.
  unfold launches. simpl. rewrite app_nil_r, Nat.add_0_r. auto.
Qed.

Lemma launches_trans (j k : nat) (p q r : publisher) :
  launches j p q -> launches k q r -> launches (j + k) p r.
Proof.
  unfold launches. intros (A1 & A2 & A3) (B1 & B2 & B3).
  rewrite B1, B2, B3, A1, A2, A3, repeat_app, <- app_assoc. split; [auto|].
  split; [reflexivity|lia].
Qed.

Lemma spawned_emit (e : event) (p : publisher) :
  spawned (emit e p)
  = (spawned p ++ match e with Popen cmd => [cmd] | _ => [] end)%list.
Proof.
  unfold spawned. cbn [trace emit]. rewrite flat_map_app. simpl.
  now rewrite app_nil_r.
Qed.

(** A change that spawns nothing. *)
Lemma launches_same (p q : publisher) :
  conf q = conf p -> spawned q = spawned p ->
  List.length (procs q) = List.length (procs p) -> launches 0 p q.
Proof.
  intros A B C. unfold launches. simpl. rewrite app_nil_r, Nat.add_0_r. auto.
Qed.

Ltac nothing_spawned :=
  apply launches_same; try reflexivity;
  unfold spawned, handler;
  cbn [trace set_thread set_running set_start_time emit set_error_count
       set_procs set_spawn_ok set_process];
  rewrite ?flat_map_app; simpl; rewrite ?app_nil_r; reflexivity.

Lemma handler_launches (p : publisher) : launches 0 p (handler p).
Proof. nothing_spawned. Qed.

Lemma thread_step_launches (p : publisher) :
  exists k, launches k p (thread_step p).
Proof.
  unfold thread_step.
  destruct (thread p) as [[| | | | |]|].
  - exists 0%nat. destruct (running p); nothing_spawned.
  - cbn [spawn_ok emit]. destruct (spawn_ok p).
    + exists 1%nat. unfold launches.
      cbn [conf procs set_thread emit set_process set_procs].
      split; [reflexivity|]. split.
      * unfold spawned. cbn [trace set_thread emit set_process set_procs].
        rewrite !flat_map_app. simpl. now rewrite !app_nil_r.
      * now rewrite length_app.
    + exists 0%nat. nothing_spawned.
  - exists 0%nat. destruct (running p); [|nothing_spawned].
    destruct (current p) as [pr|]; [|apply handler_launches].
    destruct (alive pr); nothing_spawned.
  - exists 0%nat. destruct (running p); nothing_spawned.
  - exists 0%nat. destruct (current p) as [pr|]; [|apply handler_launches].
    destruct (alive pr); [apply launches_refl|]. nothing_spawned.
  - exists 0%nat. apply launches_refl.
  - exists 0%nat. apply launches_refl.
Qed.

Lemma thread_steps_launches (n : nat) (p : publisher) :
  exists k, launches k p (thread_steps n p).
Proof.
  induction n as [|n [j IH]].
  - exists 0%nat. apply launches_refl.
  - destruct (thread_step_launches (thread_steps n p)) as [k H].
    exists (j + k)%nat. unfold thread_steps in *. cbn [Nat.iter].
    eapply launches_trans; eassumption.
Qed.

Lemma terminate_launches (e : stop_env) (p : publisher) :
  launches 0 p (terminate e p).
Proof.
  unfold terminate. destruct (process p) as [h|]; [|apply launches_refl].
  destruct (nth_error (procs p) h) as [pr|]; [|apply launches_refl].
  destruct (alive pr); [|apply launches_refl].
  destruct (graceful e); apply launches_same;
    try (cbn [procs set_procs emit]; apply OrchestratorMore.length_set_nth);
    try reflexivity.
  rewrite spawned_emit. apply app_nil_r.
Qed.

Lemma stop_launches (e : stop_env) (p : publisher) :
  exists k, launches k p (stop e p).
Proof.
  unfold stop.
  set (p1 := set_running false (emit (Log INFO Stopping) p)).
  assert (H1 : launches 0 p p1) by (unfold p1; nothing_spawned).
  destruct (thread_steps_launches (preempt e) p1) as [j H2].
  set (p2 := thread_steps (preempt e) p1) in *.
  pose proof (terminate_launches e p2) as H3.
  set (p3 := terminate e p2) in *.
  assert (H4 : exists k, launches k p3 (if thread_alive p3 then join p3 else p3)).
  { destruct (thread_alive p3); [apply thread_steps_launches|].
    exists 0%nat. apply launches_refl. }
  destruct H4 as [k H4].
  set (p4 := if thread_alive p3 then join p3 else p3) in *.
  assert (H5 : launches 0 p4 (emit (Log INFO Stopped) p4))
    by nothing_spawned.
  exists (0 + j + 0 + k + 0)%nat.
  repeat (eapply launches_trans; [|eassumption]). exact H1.
Qed.

Lemma step_launches (o : op) (p : publisher) :
  exists k, launches k p (step o p).
Proof.
  destruct o as [t|e|t| |[|h err|b]]; cbn [step bg_step].
  - exists 0%nat. unfold start. destruct (running p); nothing_spawned.
  - apply stop_launches.
  - exists 0%nat. apply launches_refl.
  - exists 0%nat. apply launches_refl.
  - apply thread_step_launches.
  - exists 0%nat. unfold proc_exit.
    destruct (nth_error (procs p) h) as [pr|]; [|apply launches_refl].
    destruct (alive pr); [|apply launches_refl].
    apply launches_same; try reflexivity.
    cbn [procs set_procs]. apply OrchestratorMore.length_set_nth.
  - exists 0%nat. apply launches_same; reflexivity.
Qed.

(** X24. One command per publisher.  Whatever is done to a publisher
    (start, stop, reads, its thread running, its processes ending, the
    host failing to spawn), its settings stay as constructed, every
    process it launches is launched with the command built from those
    settings, and it has one process per launch: crashes, restarts and
    stops never change what is published or where. *)
Theorem one_command (ops : list op) (p : publisher) :
  exists k, launches k p (run ops p).
Proof.
  unfold run. revert p. induction ops as [|o ops IH]; intro p.
  - exists 0%nat. apply launches_refl.
  - destruct (step_launches o p) as [j H]. destruct (IH (step o p)) as [k G].
    exists (j + k)%nat. cbn [fold_left]. eapply launches_trans; eassumption.
Qed.






End Lifecycle.

(** * The health audit, tick after tick *)

Module AuditMore.
Import Orchestrator OrchestratorProps.

Lemma Forall2_mapi_from_in {A} (R : A -> A -> Prop) (f : nat -> A -> A)
    (l : list A) (k : nat) :
  (forall i x, In x l -> R x (f i x)) -> Forall2 R l (mapi_from k f l).
Proof.
  revert k. induction l as [|x l IH]; intros k H; simpl; constructor.
  - apply H. left. reflexivity.
  - apply IH. intros i y Hy. apply H. right. exact Hy.
Qed.

Lemma error_lines (l : list Publisher.publisher) (x : state) :
  let y := fold_left
             (fun s p => log ERROR (TooManyErrors
                (Publisher.stream_name (Publisher.conf p))) s) l x in
  logs y = (logs x ++ map (fun p => (now x, ERROR,
                             TooManyErrors (Publisher.stream_name (Publisher.conf p))))
                          l)%list /\
  publishers y = publishers x /\ now y = now x.
Proof.
  revert x. induction l as [|a l IH]; intro x; simpl.
  - now rewrite app_nil_r.
  - destruct (IH (log ERROR (TooManyErrors
                    (Publisher.stream_name (Publisher.conf a))) x)) as (A1 & A2 & A3).
    rewrite A1, A2, A3. cbn [logs publishers now log].
    now rewrite <- app_assoc.
Qed.

(** X26. The audit keeps no record of what it has stopped.  Every
    execution of the health audit logs an error line for each publisher
    with ten errors or more, and calls [stop] on it, whether or not that
    publisher is stopped already; afterwards the publisher still has ten
    errors or more and the same settings, so the audit of the next tick
    reports and stops it again. *)
Theorem audit_repeats (env : environ) (s : state) :
  let s' := check_stream_health env s in
  exists new,
    logs s' = (logs s ++ new)%list /\
    Forall2 (fun p p' =>
               Publisher.error_count p >= 10 ->
               In (now s, ERROR,
                   TooManyErrors (Publisher.stream_name (Publisher.conf p))) new /\
               (exists e, p' = Publisher.stop e p) /\
               Publisher.error_count p' >= 10 /\
               Publisher.conf p' = Publisher.conf p)
            (publishers s) (publishers s').
Proof.
  unfold check_stream_health.
  destruct (filter (fun p => negb (Publisher.is_healthy p)) (publishers s))
    as [|u us] eqn:E.
  - exists []. cbv zeta. split; [now rewrite app_nil_r|].
    apply filter_nil_all in E.
    induction E as [|p l Hp Hl IH]; constructor; auto.
    intro H. apply quarantined_iff in H. unfold quarantined in H.
    rewrite Hp in H. discriminate.
  - cbv zeta.
    set (s0 := log WARNING (FoundUnhealthy (List.length (u :: us))) s).
    destruct (error_lines (filter quarantined (publishers s0)) s0) as (A1 & A2 & A3).
    set (s1 := fold_left _ _ s0) in *.
    exists ((now s, WARNING, FoundUnhealthy (List.length (u :: us)))
            :: map (fun p => (now s, ERROR,
                      TooManyErrors (Publisher.stream_name (Publisher.conf p))))
                   (filter quarantined (publishers s))).
    cbn [logs publishers set_publishers]. split.
    + rewrite A1. unfold s0. cbn [logs log now publishers].
      now rewrite <- app_assoc.
    + rewrite A2. unfold s0. cbn [publishers log].
      apply Forall2_mapi_from_in. intros i p Hin H.
      pose proof H as Q. apply quarantined_iff in Q. rewrite Q.
      split; [|split; [|split]].
      * right. apply in_map_iff. exists p. split; [reflexivity|].
        apply filter_In. split; assumption.
      * eexists. reflexivity.
      * pose proof (PublisherProps.stop_error_count
                      (stop_how env (now s1) i) p). lia.
      * apply OrchestratorMore.publisher_stop_conf.
Qed.

End AuditMore.
